(** * stress-ng: the scheduling-policy and SIGHUP stressors

    A shallow embedding of [stress-schedpolicy.c] and [stress-sighup.c].
    The kernel, the random source and the stress-ng core are not part of
    the two files: every call into them is answered by an explicit oracle
    and recorded in a trace of events, so that a theorem quantifies over
    every behaviour of the environment. *)

From Stdlib Require Import ZArith List Bool Lia Floats.
Import ListNotations.

Local Open Scope Z_scope.

(** ** C integer conversions (ILP32/LP64: [int] and [uint32_t] are 32 bits) *)

Module CInt.

Definition to_uint32 (z : Z) : Z := z mod 2 ^ 32.

Definition to_int32 (z : Z) : Z := (z + 2 ^ 31) mod 2 ^ 32 - 2 ^ 31.

Definition UINT32_MAX : Z := 2 ^ 32 - 1.

End CInt.

(** ** Exit statuses and errno values

    [EXIT_SUCCESS] and [EXIT_FAILURE] are those of <stdlib.h>, the errno
    values those of Linux' <errno.h>. *)

Definition EXIT_SUCCESS : Z := 0.
Definition EXIT_FAILURE : Z := 1.

(** Modelled from the spec: [EXIT_NO_RESOURCE] is declared in
    [stress-ng.h], which is not among the sources.  The spec has the
    resource error as a status of its own; 3 is the number stress-ng gives
    it. *)
Definition EXIT_NO_RESOURCE : Z := 3.

(** Modelled from the spec: [EXIT_NOT_IMPLEMENTED] is declared in
    [stress-ng.h], which is not among the sources.  The spec has "not
    implemented" as a status distinct from success and from failure; 4 is
    the number stress-ng gives it. *)
Definition EXIT_NOT_IMPLEMENTED : Z := 4.

Definition EPERM : Z := 1.
Definition EINTR : Z := 4.
Definition EINVAL : Z := 22.
Definition ENOSYS : Z := 38.

(** Signal numbers of Linux' <signal.h>. *)
Definition SIGHUP : Z := 1.
Definition SIGKILL : Z := 9.
Definition SIGSTOP : Z := 19.

(** ** stress-schedpolicy.c *)

Module SchedPolicy.

(** What the preprocessor sees: which [SCHED_*] constants <sched.h> defines
    (and their values), and which of the optional interfaces exist. *)
Record platform := {
  SCHED_IDLE : option Z;
  SCHED_FIFO : option Z;
  SCHED_RR : option Z;
  SCHED_OTHER : option Z;
  SCHED_BATCH : option Z;
  HAVE_SCHED_RR_GET_INTERVAL : bool;
  _POSIX_PRIORITY_SCHEDULING : bool;
  (* HAVE_SCHED_GETATTR && HAVE_SCHED_SETATTR *)
  HAVE_SCHED_ATTR : bool
}.

Definition if_defined (c : option Z) : list Z :=
  match c with Some v => [v] | None => [] end.

(** [static const int policies[]], lines 36-52. *)
Definition policies (plat : platform) : list Z :=
  if_defined (SCHED_IDLE plat) ++ if_defined (SCHED_FIFO plat) ++
  if_defined (SCHED_RR plat) ++ if_defined (SCHED_OTHER plat) ++
  if_defined (SCHED_BATCH plat).

Definition SIZEOF_ARRAY {A} (a : list A) : Z := Z.of_nat (length a).

(** A [case C:] label that exists only when [C] is defined. *)
Definition is_case (c : option Z) (v : Z) : bool :=
  match c with Some k => v =? k | None => false end.

(** The fields of [args_t] the stressor reads. *)
Record args_t := { instance : Z; pid : Z }.

(** The answers of the environment during one pass through the loop body.
    A system call answers with its return value and the errno it leaves
    behind when it fails. *)
Record os_iter := {
  mwc1 : bool;
  mwc32 : Z;
  sched_rr_get_interval : Z -> Z * Z;
  sched_get_priority_min : Z -> Z;
  sched_get_priority_max : Z -> Z;
  sched_setscheduler : Z -> Z -> Z -> Z * Z;
  sched_getscheduler : Z -> Z * Z;
  sched_getparam : Z -> Z * Z;
  sched_setparam : Z -> Z * Z;
  (* return value, errno, then attr.sched_util_min and attr.sched_util_max
     as the call leaves them in the zeroed attr *)
  shim_sched_getattr : Z -> (Z * Z) * (Z * Z);
  shim_sched_setattr : Z -> Z -> Z -> Z * Z;
  keep_stressing : bool
}.

Inductive fail_msg :=
| Fail_setscheduler (errno policy : Z)
| Fail_getscheduler_errno (errno : Z)
| Fail_getscheduler_policy (pid policy ret : Z)
| Fail_getparam (errno : Z)
| Fail_setparam (errno : Z)
| Fail_getattr (errno : Z)
| Fail_setattr (errno : Z).

Inductive event :=
| Pr_inf
| Pr_err (policy min_prio max_prio : Z)
| Pr_fail (m : fail_msg)
| E_rr_get_interval (pid : Z)
| E_get_priority_min (policy : Z)
| E_get_priority_max (policy : Z)
| E_setscheduler (pid policy prio : Z)
| E_getscheduler (pid : Z)
| E_getparam (pid : Z)
| E_setparam (pid : Z)
| E_getattr (pid : Z)
| E_setattr (pid util_min util_max : Z)
| E_yield
| Inc_counter.

(** The locals of [stress_schedpolicy] that live across iterations,
    lines 56-60.  [policy] is the index into [policies]. *)
Record state := {
  policy : Z;
  sched_util_min : Z;
  sched_util_max : Z;
  sched_util_max_value : Z;
  counter : Z
}.

Definition init_state : state :=
  {| policy := 0;
     sched_util_min := CInt.UINT32_MAX;
     sched_util_max := 0;
     sched_util_max_value := 0;
     counter := 0 |}.

(** How the [switch] is left: by [continue], or by [break] with [ret] and
    the errno of the last failed call. *)
Inductive switch_exit :=
| Sw_continue (evs : list event)
| Sw_break (ret errno : Z) (evs : list event).

(** [param.sched_priority = (mwc32() % (rng_prio)) + min_prio], lines
    128-129: the modulus and the sum are taken in [uint32_t], the result is
    stored into an [int]. *)
Definition rng_priority (rnd rng_prio min_prio : Z) : Z :=
  CInt.to_int32
    (CInt.to_uint32
       (CInt.to_uint32 rnd mod CInt.to_uint32 rng_prio + min_prio)).

(** Lines 111-131, the body shared by [case SCHED_RR] and [case SCHED_FIFO].
    [ret] and [errno] are what the code before the label left. *)
Definition realtime_case (os : os_iter) (policy new_policy pid ret errno : Z)
  : switch_exit :=
  let min_prio := sched_get_priority_min os policy in
  let max_prio := sched_get_priority_max os policy in
  let evs := [E_get_priority_min policy; E_get_priority_max policy] in
  if (min_prio =? -1) || (max_prio =? -1) then Sw_continue evs
  else
    let rng_prio := CInt.to_int32 (max_prio - min_prio) in
    if rng_prio =? 0 then
      Sw_break ret errno (evs ++ [Pr_err new_policy min_prio max_prio])
    else
      let prio := rng_priority (mwc32 os) rng_prio min_prio in
      let '(ret', errno') := sched_setscheduler os pid new_policy prio in
      Sw_break ret' (if ret' <? 0 then errno' else errno)
        (evs ++ [E_setscheduler pid new_policy prio]).

(** The [switch (new_policy)], lines 83-135. *)
Definition switch_stmt (plat : platform) (os : os_iter)
    (policy new_policy pid : Z) : switch_exit :=
  if is_case (SCHED_IDLE plat) new_policy
     || is_case (SCHED_BATCH plat) new_policy
     || is_case (SCHED_OTHER plat) new_policy
  then
    let '(ret, errno) := sched_setscheduler os pid new_policy 0 in
    Sw_break ret (if ret <? 0 then errno else 0)
      [E_setscheduler pid new_policy 0]
  else if is_case (SCHED_RR plat) new_policy then
    if HAVE_SCHED_RR_GET_INTERVAL plat then
      let '(ret, errno) := sched_rr_get_interval os pid in
      match realtime_case os policy new_policy pid ret
              (if ret <? 0 then errno else 0) with
      | Sw_continue evs => Sw_continue (E_rr_get_interval pid :: evs)
      | Sw_break r e evs => Sw_break r e (E_rr_get_interval pid :: evs)
      end
    else realtime_case os policy new_policy pid 0 0
  else if is_case (SCHED_FIFO plat) new_policy then
    realtime_case os policy new_policy pid 0 0
  else Sw_break 0 0 [].

(** Lines 136-160: report a failed policy-set, or read the policy back. *)
Definition check_policy (os : os_iter) (new_policy pid ret errno : Z)
  : list event :=
  if ret <? 0 then
    if negb (errno =? EPERM) && negb (errno =? EINVAL)
    then [Pr_fail (Fail_setscheduler errno new_policy)]
    else []
  else
    let '(ret', errno') := sched_getscheduler os pid in
    E_getscheduler pid ::
    (if ret' <? 0 then [Pr_fail (Fail_getscheduler_errno errno')]
     else if negb (ret' =? new_policy)
          then [Pr_fail (Fail_getscheduler_policy pid new_policy ret')]
          else []).

(** Lines 161-170. *)
Definition get_set_param (plat : platform) (os : os_iter) (pid : Z)
  : list event :=
  if _POSIX_PRIORITY_SCHEDULING plat then
    let '(r1, e1) := sched_getparam os pid in
    let '(r2, e2) := sched_setparam os pid in
    E_getparam pid ::
    (if (r1 <? 0) && (negb (e1 =? EINVAL) && negb (e1 =? EPERM))
     then [Pr_fail (Fail_getparam e1)] else []) ++
    E_setparam pid ::
    (if (r2 <? 0) && (negb (e2 =? EINVAL) && negb (e2 =? EPERM))
     then [Pr_fail (Fail_setparam e2)] else [])
  else [].

(** Lines 186-204: fold the clamps read back into the running minimum and
    maximum and choose the [sched_util_max] to write.  Returns the new
    state and [attr.sched_util_max]. *)
Definition track_util (st : state) (attr_min attr_max : Z) : state * Z :=
  if negb (attr_max =? 0) then
    let umin := if sched_util_min st >? attr_min then attr_min
                else sched_util_min st in
    let umax := if sched_util_max st <? attr_max then attr_max
                else sched_util_max st in
    let umin := if umin >? umax then umax else umin in
    let value := if sched_util_max_value st =? 0 then umax
                 else sched_util_max_value st in
    ({| policy := policy st;
        sched_util_min := umin;
        sched_util_max := umax;
        sched_util_max_value := value;
        counter := counter st |}, value)
  else (st, attr_max).

(** Lines 214-223.  [counter++] is evaluated whatever the other two
    conditions say. *)
Definition cycle_down (st : state) : state :=
  let old := counter st in
  let st1 := {| policy := policy st;
                sched_util_min := sched_util_min st;
                sched_util_max := sched_util_max st;
                sched_util_max_value := sched_util_max_value st;
                counter := CInt.to_int32 (old + 1) |} in
  if (old >? 256)
     && (sched_util_max_value st >? 0)
     && (sched_util_max_value st >? sched_util_min st)
  then {| policy := policy st;
          sched_util_min := sched_util_min st;
          sched_util_max := sched_util_max st;
          sched_util_max_value := sched_util_max_value st - 1;
          counter := 0 |}
  else st1.

(** Lines 172-224. *)
Definition sched_attr_block (plat : platform) (os : os_iter) (pid : Z)
    (st : state) : state * list event :=
  if HAVE_SCHED_ATTR plat then
    let '((r1, e1), (attr_min, attr_max)) := shim_sched_getattr os pid in
    let '(st1, attr_max') := track_util st attr_min attr_max in
    let '(r2, e2) := shim_sched_setattr os pid attr_min attr_max' in
    (cycle_down st1,
     E_getattr pid ::
     (if (r1 <? 0) && negb (e1 =? ENOSYS)
      then [Pr_fail (Fail_getattr e1)] else []) ++
     E_setattr pid attr_min attr_max' ::
     (if (r2 <? 0) && negb (e2 =? ENOSYS)
      then [Pr_fail (Fail_setattr e2)] else []))
  else (st, []).

(** Lines 226-229: [policy++; policy %= SIZEOF_ARRAY(policies)]. *)
Definition next_policy (plat : platform) (st : state) : state :=
  {| policy := (policy st + 1) mod SIZEOF_ARRAY (policies plat);
     sched_util_min := sched_util_min st;
     sched_util_max := sched_util_max st;
     sched_util_max_value := sched_util_max_value st;
     counter := counter st |}.

(** [int new_policy = policies[policy]], line 79. *)
Definition new_policy_of (plat : platform) (st : state) : Z :=
  nth (Z.to_nat (policy st)) (policies plat) 0.

(** [const pid_t pid = mwc1() ? 0 : args->pid], line 80. *)
Definition target_pid (args : args_t) (os : os_iter) : Z :=
  if mwc1 os then 0 else pid args.

(** One pass through the body of the [do ... while], lines 72-229. *)
Definition body (plat : platform) (args : args_t) (os : os_iter)
    (st : state) : state * list event :=
  let new_policy := new_policy_of plat st in
  let pid := target_pid args os in
  match switch_stmt plat os (policy st) new_policy pid with
  | Sw_continue evs => (st, evs)
  | Sw_break ret errno evs =>
      let evs2 := check_policy os new_policy pid ret errno in
      let evs3 := get_set_param plat os pid in
      let '(st', evs4) := sched_attr_block plat os pid st in
      (next_policy plat st',
       evs ++ evs2 ++ evs3 ++ evs4 ++ [E_yield; Inc_counter])
  end.

(** The [do { ... } while (keep_stressing())] loop.  The list holds the
    environment's answers iteration by iteration; [None] means the answers
    ran out while the loop was still going. *)
Fixpoint loop (plat : platform) (args : args_t) (oss : list os_iter)
    (st : state) : option (state * list event) :=
  match oss with
  | [] => None
  | os :: oss' =>
      let '(st', evs) := body plat args os st in
      if keep_stressing os then
        match loop plat args oss' st' with
        | Some (st'', evs') => Some (st'', evs ++ evs')
        | None => None
        end
      else Some (st', evs)
  end.

(** [stress_schedpolicy], lines 54-233: the exit status and the trace. *)
Definition stress_schedpolicy (plat : platform) (args : args_t)
    (oss : list os_iter) : option (Z * list event) :=
  if SIZEOF_ARRAY (policies plat) =? 0 then
    Some (EXIT_NOT_IMPLEMENTED,
          if instance args =? 0 then [Pr_inf] else [])
  else
    match loop plat args oss init_state with
    | Some (_, evs) => Some (EXIT_SUCCESS, evs)
    | None => None
    end.

(** The states after each prefix of the answers, without the traces. *)
Fixpoint iterate (plat : platform) (args : args_t) (oss : list os_iter)
    (st : state) : state :=
  match oss with
  | [] => st
  | os :: oss' => iterate plat args oss' (fst (body plat args os st))
  end.

(** The events of the passes the answers allow, end to end. *)
Fixpoint trace (plat : platform) (args : args_t) (oss : list os_iter)
    (st : state) : list event :=
  match oss with
  | [] => []
  | os :: oss' =>
      snd (body plat args os st)
      ++ trace plat args oss' (fst (body plat args os st))
  end.

(** Linux with glibc: every policy is there; <sched.h> numbers them
    SCHED_OTHER 0, SCHED_FIFO 1, SCHED_RR 2, SCHED_BATCH 3, SCHED_IDLE 5. *)
Definition linux : platform :=
  {| SCHED_IDLE := Some 5; SCHED_FIFO := Some 1; SCHED_RR := Some 2;
     SCHED_OTHER := Some 0; SCHED_BATCH := Some 3;
     HAVE_SCHED_RR_GET_INTERVAL := true;
     _POSIX_PRIORITY_SCHEDULING := true;
     HAVE_SCHED_ATTR := true |}.

(** FreeBSD: <sched.h> has SCHED_FIFO 1, SCHED_OTHER 2, SCHED_RR 3 and
    neither SCHED_IDLE nor SCHED_BATCH; no sched_getattr. *)
Definition freebsd : platform :=
  {| SCHED_IDLE := None; SCHED_FIFO := Some 1; SCHED_RR := Some 3;
     SCHED_OTHER := Some 2; SCHED_BATCH := None;
     HAVE_SCHED_RR_GET_INTERVAL := true;
     _POSIX_PRIORITY_SCHEDULING := true;
     HAVE_SCHED_ATTR := false |}.

(** A platform that passes the guard of line 33 and defines no policy. *)
Definition no_policies : platform :=
  {| SCHED_IDLE := None; SCHED_FIFO := None; SCHED_RR := None;
     SCHED_OTHER := None; SCHED_BATCH := None;
     HAVE_SCHED_RR_GET_INTERVAL := false;
     _POSIX_PRIORITY_SCHEDULING := true;
     HAVE_SCHED_ATTR := false |}.

(** Counting events in a trace. *)
Definition is_inf (e : event) : bool :=
  match e with Pr_inf => true | _ => false end.

Definition is_inc (e : event) : bool :=
  match e with Inc_counter => true | _ => false end.

Definition is_report (e : event) : bool :=
  match e with Pr_fail _ | Pr_err _ _ _ => true | _ => false end.

Definition count_if (p : event -> bool) (evs : list event) : nat :=
  length (filter p evs).

(** The label under which the [switch] files [new_policy]. *)
Definition is_realtime (plat : platform) (new_policy : Z) : bool :=
  negb (is_case (SCHED_IDLE plat) new_policy
        || is_case (SCHED_BATCH plat) new_policy
        || is_case (SCHED_OTHER plat) new_policy)
  && (is_case (SCHED_RR plat) new_policy
      || is_case (SCHED_FIFO plat) new_policy).

(** No priority range reads as unsupported. *)
Definition ranges_supported (os : os_iter) : Prop :=
  forall p, sched_get_priority_min os p <> -1 /\
            sched_get_priority_max os p <> -1.

(** A kernel for the examples: every call succeeds, realtime priorities
    run from 1 to 99 whatever the policy asked about, the policy read back
    is [effective], the clamps read back are 0 and 1024. *)
Definition calm (rnd effective : Z) (keep : bool) : os_iter :=
  {| mwc1 := true;
     mwc32 := rnd;
     sched_rr_get_interval := fun _ => (0, 0);
     sched_get_priority_min := fun _ => 1;
     sched_get_priority_max := fun _ => 99;
     sched_setscheduler := fun _ _ _ => (0, 0);
     sched_getscheduler := fun _ => (effective, 0);
     sched_getparam := fun _ => (0, 0);
     sched_setparam := fun _ => (0, 0);
     shim_sched_getattr := fun _ => ((0, 0), (0, 1024));
     shim_sched_setattr := fun _ _ _ => (0, 0);
     keep_stressing := keep |}.

(** The same kernel telling the priority ranges apart: 0..31 for
    SCHED_FIFO (1) and SCHED_RR (3), none for any other number. *)
Definition bsd_kernel (rnd : Z) : os_iter :=
  {| mwc1 := true;
     mwc32 := rnd;
     sched_rr_get_interval := fun _ => (0, 0);
     sched_get_priority_min :=
       fun p => if (p =? 1) || (p =? 3) then 0 else -1;
     sched_get_priority_max :=
       fun p => if (p =? 1) || (p =? 3) then 31 else -1;
     sched_setscheduler := fun _ _ _ => (0, 0);
     sched_getscheduler := fun _ => (1, 0);
     sched_getparam := fun _ => (0, 0);
     sched_setparam := fun _ => (0, 0);
     shim_sched_getattr := fun _ => ((-1, ENOSYS), (0, 0));
     shim_sched_setattr := fun _ _ _ => (-1, ENOSYS);
     keep_stressing := true |}.

(** The cycled-down value is either still unset or not below the smallest
    clamp seen. *)
Definition floor_holds (st : state) : Prop :=
  sched_util_max_value st = 0
  \/ sched_util_min st <= sched_util_max_value st.

(** The clamps a pass reads with [shim_sched_getattr]. *)
Definition attr_read (args : args_t) (os : os_iter) : Z * Z :=
  snd (shim_sched_getattr os (target_pid args os)).

(** A state between two cycle-downs: clamps 0..1024 seen, 1024 applied. *)
Definition clamped : state :=
  {| policy := 0;
     sched_util_min := 0;
     sched_util_max := 1024;
     sched_util_max_value := 1024;
     counter := 0 |}.

Definition worker (n : Z) : args_t := {| instance := n; pid := 4242 |}.

(** More classes of events. *)
Definition is_set (e : event) : bool :=
  match e with E_setscheduler _ _ _ => true | _ => false end.

Definition is_query (e : event) : bool :=
  match e with
  | E_get_priority_min _ | E_get_priority_max _ => true
  | _ => false
  end.

Definition is_getscheduler (e : event) : bool :=
  match e with E_getscheduler _ => true | _ => false end.

Definition is_set_failure (e : event) : bool :=
  match e with Pr_fail (Fail_setscheduler _ _) => true | _ => false end.

(** The labels of lines 84-92. *)
Definition is_nonrealtime (plat : platform) (new_policy : Z) : bool :=
  is_case (SCHED_IDLE plat) new_policy
  || is_case (SCHED_BATCH plat) new_policy
  || is_case (SCHED_OTHER plat) new_policy.

(** A kernel for the examples with one priority range [mn..mx] for every
    policy number and fixed answers [rr] and [set] to
    [sched_rr_get_interval] and [sched_setscheduler]. *)
Definition kernel (mn mx : Z) (rr set : Z * Z) : os_iter :=
  {| mwc1 := true;
     mwc32 := 0;
     sched_rr_get_interval := fun _ => rr;
     sched_get_priority_min := fun _ => mn;
     sched_get_priority_max := fun _ => mx;
     sched_setscheduler := fun _ _ _ => set;
     sched_getscheduler := fun _ => (0, 0);
     sched_getparam := fun _ => (0, 0);
     sched_setparam := fun _ => (0, 0);
     shim_sched_getattr := fun _ => ((0, 0), (0, 1024));
     shim_sched_setattr := fun _ _ _ => (0, 0);
     keep_stressing := true |}.

(** The state just before the cycled-down value reaches zero. *)
Definition nearly_down : state :=
  {| policy := 0;
     sched_util_min := 0;
     sched_util_max := 1024;
     sched_util_max_value := 1;
     counter := 257 |}.

End SchedPolicy.

(** ** stress-sighup.c *)

Module SigHup.

(** [stress_sighup_info_t], lines 28-34: the block shared through the
    anonymous [MAP_SHARED] mapping.  The three [double] fields are IEEE 754
    binary64 numbers. *)
Record stress_sighup_info_t := {
  signalled : bool;
  pid : Z;
  count : float;
  t_start : float;
  latency : float
}.

Definition set_signalled (b : bool) (i : stress_sighup_info_t) :=
  {| signalled := b; pid := pid i; count := count i;
     t_start := t_start i; latency := latency i |}.

Definition set_pid (p : Z) (i : stress_sighup_info_t) :=
  {| signalled := signalled i; pid := p; count := count i;
     t_start := t_start i; latency := latency i |}.

Definition set_count (c : float) (i : stress_sighup_info_t) :=
  {| signalled := signalled i; pid := pid i; count := c;
     t_start := t_start i; latency := latency i |}.

Definition set_t_start (t : float) (i : stress_sighup_info_t) :=
  {| signalled := signalled i; pid := pid i; count := count i;
     t_start := t; latency := latency i |}.

(** What [mmap] hands out: zero-filled pages. *)
Definition zero_info : stress_sighup_info_t :=
  {| signalled := false; pid := 0; count := 0%float;
     t_start := 0%float; latency := 0%float |}.

(** The handler's body once [sighup_info] is known to be mapped, lines
    43-49.  [now] is what [stress_time_now()] answers. *)
Definition handle (now : float) (i : stress_sighup_info_t)
  : stress_sighup_info_t :=
  let latency_ := (now - t_start i)%float in
  let i1 := set_signalled true i in
  if (0 <? t_start i1)%float && (0 <? latency_)%float then
    {| signalled := signalled i1; pid := pid i1;
       count := (count i1 + 1)%float;
       t_start := t_start i1;
       latency := (latency i1 + latency_)%float |}
  else i1.

(** [stress_sighup_handler], lines 38-51; [None] is the NULL pointer. *)
Definition stress_sighup_handler (now : float)
    (sighup_info : option stress_sighup_info_t)
  : option stress_sighup_info_t :=
  match sighup_info with
  | Some i => Some (handle now i)
  | None => None
  end.

(** The handler run once per delivered signal; before each delivery the
    processes of the trial leave some [t_start] in the block. *)
Fixpoint deliveries (sigs : list (float * float)) (i : stress_sighup_info_t)
  : stress_sighup_info_t :=
  match sigs with
  | [] => i
  | (start, now) :: sigs' => deliveries sigs' (handle now (set_t_start start i))
  end.

(** The latencies that pass the handler's test, in order of delivery. *)
Fixpoint accepted (sigs : list (float * float)) : list float :=
  match sigs with
  | [] => []
  | (start, now) :: sigs' =>
      if (0 <? start)%float && (0 <? now - start)%float
      then (now - start)%float :: accepted sigs'
      else accepted sigs'
  end.

Inductive fail_msg :=
| Fail_fork (errno : Z)
| Fail_waitpid (errno : Z)
| Fail_not_signalled.

Inductive event :=
| E_fork
| E_sighandler (signum : Z)
| E_raise (signum : Z)
| E_waitpid (pid : Z)
| E_pipe
| E_close_fds
| E_setpgid (pid pgid : Z)
| E_read (nbyte : Z)
| E_write (nbyte : Z)
| E_kill (pid signum : Z)
| E_kill_pid_wait (pid : Z)
| Pr_fail (m : fail_msg)
| Pr_inf_skip
| E_mmap
| E_munmap
| E_metrics_set (value : float)
| Bogo_inc.

(** How the code at hand stops running in the process that executes it. *)
Inductive outcome :=
| Returns (rc : Z)
| Exits (status : Z)
| Killed_by (signum : Z)
| Blocks.

Definition run := (outcome * stress_sighup_info_t * list event)%type.

Definition prepend (evs : list event) (r : option run) : option run :=
  match r with
  | Some (o, i, evs') => Some (o, i, evs ++ evs')
  | None => None
  end.

(** One [fork()] and what the collaborators answer if it fails. *)
Record fork_try := {
  fork_ret : Z;
  fork_errno : Z;
  stress_redo_fork : bool;
  stress_continue : bool
}.

(** One [shim_waitpid()]: its answer, and the writes the other processes
    made to the shared block before it came back. *)
Record wait_try := {
  wait_ret : Z;
  wait_errno : Z;
  wait_shared : stress_sighup_info_t -> stress_sighup_info_t
}.

(** What [shim_raise(SIGHUP)] leads to in the raising process. *)
Inductive raise_effect :=
| Handler_runs (now : float)
| Default_action.

(** What ends the stop of a process that sent itself SIGSTOP. *)
Inductive stop_end :=
| Continued_with_hup (now : float)
| Continued
| Killed.

(** read(2) on a pipe as POSIX has it: an error detected gives -1; a
    request for zero bytes returns zero at once; an empty pipe blocks the
    reader; otherwise at most [nbyte] bytes come back. *)
Inductive read_result :=
| Read_ret (n : Z)
| Read_blocks.

Definition sys_read (buffered : Z) (error : bool) (nbyte : Z) : read_result :=
  if error then Read_ret (-1)
  else if nbyte =? 0 then Read_ret 0
  else if buffered =? 0 then Read_blocks
  else Read_ret (Z.min nbyte buffered).

(** The answers a forked child meets. *)
Record child_os := {
  time_now : float;
  raise_hup : raise_effect;
  pipe_ret : Z;
  fork2_ret : Z;
  getpid : Z;
  write_ret : Z;
  stopped_until : stop_end;
  (* bytes child B has put into the pipe when child A reads, and whether
     the read detects an error *)
  pipe_buffered : Z;
  read_error : bool
}.

(** The answers met during one trial. *)
Record trial_os := {
  stress_mwc1 : bool;
  forks : list fork_try;
  waits : list wait_try;
  child : child_os;
  continue_after : bool
}.

(** A wait that failed because a signal interrupted it. *)
Definition interrupted (w : wait_try) : bool :=
  (wait_ret w <? 0) && (wait_errno w =? EINTR).

(** The block after the writes that came in during these waits. *)
Definition shared_after (ws : list wait_try) (i : stress_sighup_info_t)
  : stress_sighup_info_t :=
  fold_left (fun i w => wait_shared w i) ws i.

(** Lines 69-74: the child of [stress_sighup_raise_signal]. *)
Definition raise_signal_child (c : child_os) (i : stress_sighup_info_t)
  : run :=
  let i1 := set_t_start (time_now c) i in
  match raise_hup c with
  | Handler_runs now =>
      (Exits 0, handle now i1, [E_sighandler SIGHUP; E_raise SIGHUP])
  | Default_action =>
      (Killed_by SIGHUP, i1, [E_sighandler SIGHUP; E_raise SIGHUP])
  end.

(** Lines 76-91: the parent of [stress_sighup_raise_signal] from [rewait:]
    on. *)
Fixpoint raise_signal_rewait (pid_ : Z) (ws : list wait_try)
    (i : stress_sighup_info_t) : option run :=
  match ws with
  | [] => None
  | w :: ws' =>
      let i1 := wait_shared w i in
      if wait_ret w <? 0 then
        if wait_errno w =? EINTR then
          prepend [E_waitpid pid_] (raise_signal_rewait pid_ ws' i1)
        else
          Some (Returns EXIT_FAILURE, i1,
                [E_waitpid pid_; Pr_fail (Fail_waitpid (wait_errno w))])
      else if Bool.eqb (signalled i1) false then
        Some (Returns EXIT_FAILURE, i1,
              [E_waitpid pid_; Pr_fail Fail_not_signalled])
      else Some (Returns 0, i1, [E_waitpid pid_])
  end.

(** [stress_sighup_raise_signal], lines 53-92. *)
Fixpoint raise_signal_again (fs : list fork_try) (t : trial_os)
    (i : stress_sighup_info_t) : option run :=
  match fs with
  | [] => None
  | f :: fs' =>
      if fork_ret f <? 0 then
        if stress_redo_fork f then prepend [E_fork] (raise_signal_again fs' t i)
        else if negb (stress_continue f) then Some (Returns 0, i, [E_fork])
        else Some (Returns (-1), i, [E_fork; Pr_fail (Fail_fork (fork_errno f))])
      else if fork_ret f =? 0 then
        let '(o, i', evs) := raise_signal_child (child t) i in
        Some (o, i', E_fork :: evs)
      else prepend [E_fork] (raise_signal_rewait (fork_ret f) (waits t) i)
  end.

Definition stress_sighup_raise_signal (t : trial_os)
    (i : stress_sighup_info_t) : option run :=
  raise_signal_again (forks t) t i.

(** Lines 132-138: child B. *)
Definition process_group_child_b (c : child_os) (i : stress_sighup_info_t)
  : run :=
  let i1 := set_pid (getpid c) i in
  if write_ret c <? 1 then (Exits 0, i1, [E_write 1])
  else
    match stopped_until c with
    | Killed =>
        (Killed_by SIGKILL, i1, [E_write 1; E_kill (getpid c) SIGSTOP])
    | Continued =>
        (Exits 0, i1, [E_write 1; E_kill (getpid c) SIGSTOP; E_close_fds])
    | Continued_with_hup now =>
        (Exits 0, handle now i1,
         [E_write 1; E_kill (getpid c) SIGSTOP; E_close_fds])
    end.

(** Lines 139-153: child A once child B is forked. *)
Definition process_group_child_a (c : child_os) (pid2 : Z)
    (i : stress_sighup_info_t) : run :=
  let i1 := set_pid pid2 i in
  match sys_read (pipe_buffered c) (read_error c) 0 with
  | Read_blocks => (Blocks, i1, [E_setpgid pid2 0; E_read 0])
  | Read_ret n =>
      if n <? 1 then
        (Killed_by SIGKILL, set_t_start (time_now c) i1,
         [E_setpgid pid2 0; E_read 0; E_kill (getpid c) SIGKILL])
      else (Exits 0, i1, [E_setpgid pid2 0; E_read 0; E_close_fds])
  end.

(** Lines 120-153: what the child of the first fork runs. *)
Definition process_group_child (c : child_os) (i : stress_sighup_info_t)
  : run :=
  if pipe_ret c <? 0 then (Returns 0, i, [E_pipe])
  else
    let i1 := set_t_start 0%float i in
    if fork2_ret c <? 0 then (Returns 0, i1, [E_pipe; E_fork; E_close_fds])
    else if fork2_ret c =? 0 then
      let '(o, i', evs) := process_group_child_b c i1 in
      (o, i', E_pipe :: E_fork :: evs)
    else
      let '(o, i', evs) := process_group_child_a c (fork2_ret c) i1 in
      (o, i', E_pipe :: E_fork :: evs).

(** Lines 162-163 and 166-167. *)
Definition kill_recorded (i : stress_sighup_info_t) : list event :=
  if negb (pid i =? 0) then [E_kill_pid_wait (pid i)] else [].

(** Lines 155-168: the parent of [stress_sighup_process_group] from
    [rewait:] on. *)
Fixpoint process_group_rewait (pid_ : Z) (ws : list wait_try)
    (i : stress_sighup_info_t) : option run :=
  match ws with
  | [] => None
  | w :: ws' =>
      let i1 := wait_shared w i in
      if wait_ret w <? 0 then
        if wait_errno w =? EINTR then
          prepend [E_waitpid pid_] (process_group_rewait pid_ ws' i1)
        else
          Some (Returns EXIT_FAILURE, i1,
                [E_waitpid pid_; Pr_fail (Fail_waitpid (wait_errno w))]
                ++ kill_recorded i1)
      else Some (Returns 0, i1, E_waitpid pid_ :: kill_recorded i1)
  end.

Fixpoint process_group_again (fs : list fork_try) (t : trial_os)
    (i : stress_sighup_info_t) : option run :=
  match fs with
  | [] => None
  | f :: fs' =>
      if fork_ret f <? 0 then
        if stress_redo_fork f then
          prepend [E_fork] (process_group_again fs' t i)
        else if negb (stress_continue f) then Some (Returns 0, i, [E_fork])
        else Some (Returns EXIT_FAILURE, i,
                   [E_fork; Pr_fail (Fail_fork (fork_errno f))])
      else if fork_ret f =? 0 then
        let '(o, i', evs) := process_group_child (child t) i in
        Some (o, i', E_fork :: evs)
      else prepend [E_fork] (process_group_rewait (fork_ret f) (waits t) i)
  end.

(** [stress_sighup_process_group], lines 100-169. *)
Definition stress_sighup_process_group (t : trial_os)
    (i : stress_sighup_info_t) : option run :=
  prepend [E_sighandler SIGHUP] (process_group_again (forks t) t (set_pid 0 i)).

(** Modelled from the spec: [STRESS_DBL_NANOSECOND] is declared in
    [stress-ng.h], which is not among the sources; the metric is labelled
    in nanoseconds and the clock counts seconds. *)
Definition STRESS_DBL_NANOSECOND : float := 1000000000%float.

(** Lines 215-223: the end of [stress_sighup]. *)
Definition deinit (rc : Z) (i : stress_sighup_info_t) : run :=
  let rate := if (0 <? count i)%float then (latency i / count i)%float
              else 0%float in
  (Returns rc, i,
   [E_metrics_set (rate * STRESS_DBL_NANOSECOND)%float; E_munmap]).

(** Lines 201-213, then the end of the function.  A trial that does not
    return (the process was a child and is gone) ends the run there. *)
Fixpoint trials (ts : list trial_os) (i : stress_sighup_info_t)
  : option run :=
  match ts with
  | [] => None
  | t :: ts' =>
      let i0 := set_signalled false i in
      match (if stress_mwc1 t then stress_sighup_raise_signal t i0
             else stress_sighup_process_group t i0) with
      | None => None
      | Some (Returns rc, i1, evs) =>
          if rc =? EXIT_SUCCESS then
            if continue_after t then
              prepend (evs ++ [Bogo_inc]) (trials ts' i1)
            else
              let '(o, i2, evs') := deinit rc i1 in
              Some (o, i2, evs ++ Bogo_inc :: evs')
          else
            let '(o, i2, evs') := deinit rc i1 in
            Some (o, i2, evs ++ evs')
      | Some (o, i1, evs) => Some (o, i1, evs)
      end
  end.

(** [stress_sighup], lines 176-224.  [sighandler_ret] and [mmap_ok] are
    the answers to the two set-up calls. *)
Definition stress_sighup (sighandler_ret : Z) (mmap_ok : bool)
    (ts : list trial_os) : option run :=
  if sighandler_ret <? 0 then
    Some (Returns EXIT_NO_RESOURCE, zero_info, [E_sighandler SIGHUP])
  else if negb mmap_ok then
    Some (Returns EXIT_NO_RESOURCE, zero_info,
          [E_sighandler SIGHUP; E_mmap; Pr_inf_skip])
  else
    prepend [E_sighandler SIGHUP; E_mmap]
      (trials ts (set_count 0%float zero_info)).

(** Answers for the examples: the child is pid 77, child B pid 78, the
    clock reads 2.0 and the pipe holds [buffered] bytes when read. *)
Definition a_child (buffered : Z) : child_os :=
  {| time_now := 2%float;
     raise_hup := Handler_runs 3.5%float;
     pipe_ret := 0;
     fork2_ret := 78;
     getpid := 77;
     write_ret := 1;
     stopped_until := Killed;
     pipe_buffered := buffered;
     read_error := false |}.

Definition wait_eintr : wait_try :=
  {| wait_ret := -1; wait_errno := EINTR; wait_shared := fun i => i |}.

(** The wait comes back with the child's pid after [child] has run. *)
Definition wait_done (child : stress_sighup_info_t -> stress_sighup_info_t)
  : wait_try :=
  {| wait_ret := 77; wait_errno := 0; wait_shared := child |}.

(** Classes of events. *)
Definition is_unmap (e : event) : bool :=
  match e with E_munmap => true | _ => false end.

Definition is_not_signalled (e : event) : bool :=
  match e with Pr_fail Fail_not_signalled => true | _ => false end.

Definition count_if (p : event -> bool) (evs : list event) : nat :=
  length (filter p evs).

(** What a trial logs: calls and reports, nothing of the run's end. *)
Definition of_trial (e : event) : bool :=
  match e with
  | E_fork | E_sighandler _ | E_raise _ | E_waitpid _ | E_pipe
  | E_close_fds | E_setpgid _ _ | E_read _ | E_write _ | E_kill _ _
  | E_kill_pid_wait _ | Pr_fail _ => true
  | _ => false
  end.

(** What a trial of variant B logs. *)
Definition of_process_group (e : event) : bool :=
  of_trial e && negb (is_not_signalled e).

(** A run of trial code: its events are of class [q] and, if it returns,
    the status is one of [rcs]. *)
Definition well_behaved (q : event -> bool) (rcs : list Z) (r : option run)
  : Prop :=
  match r with
  | Some (o, _, evs) =>
      forallb q evs = true
      /\ forall rc, o = Returns rc -> In rc rcs
  | None => True
  end.


Definition fork_ok : fork_try :=
  {| fork_ret := 77; fork_errno := 0;
     stress_redo_fork := false; stress_continue := true |}.

(** ENOMEM on fork, with the collaborators' answers. *)
Definition fork_enomem (redo cont : bool) : fork_try :=
  {| fork_ret := -1; fork_errno := 12;
     stress_redo_fork := redo; stress_continue := cont |}.

(** A trial as the parent sees it. *)
Definition a_trial (variant_a : bool) (fs : list fork_try)
    (ws : list wait_try) (c : child_os) : trial_os :=
  {| stress_mwc1 := variant_a; forks := fs; waits := ws;
     child := c; continue_after := false |}.

(** A child in which [pipe()] answers [p] and the second [fork()] [f]. *)
Definition b_child (p f : Z) : child_os :=
  {| time_now := 2%float;
     raise_hup := Handler_runs 3.5%float;
     pipe_ret := p;
     fork2_ret := f;
     getpid := 77;
     write_ret := 1;
     stopped_until := Killed;
     pipe_buffered := 0;
     read_error := false |}.

End SigHup.

(** * Facts *)

Module CIntFacts.
Import CInt.

Lemma to_uint32_range z : 0 <= to_uint32 z < 2 ^ 32.
Proof. unfold to_uint32. apply Z.mod_pos_bound. lia. Qed.

Lemma to_uint32_small z : 0 <= z < 2 ^ 32 -> to_uint32 z = z.
Proof. intros H. unfold to_uint32. apply Z.mod_small. exact H. Qed.

Lemma to_int32_small z : - 2 ^ 31 <= z < 2 ^ 31 -> to_int32 z = z.
Proof.
  intros H. unfold to_int32. rewrite Z.mod_small; lia.
Qed.

(** Storing an [int] value that went through [uint32_t] gives it back. *)
Lemma to_int32_to_uint32 z : - 2 ^ 31 <= z < 2 ^ 31 -> to_int32 (to_uint32 z) = z.
Proof.
  intros H. unfold to_int32, to_uint32.
  rewrite Z.add_mod_idemp_l by lia.
  rewrite Z.mod_small; lia.
Qed.

End CIntFacts.

Module SchedPolicyFacts.
Import CInt CIntFacts SchedPolicy.

(** ** The empty policy table *)

(** C9, as the claim has it, fails for every worker but the first: worker 1
    returns the status without any message. *)
Lemma empty_table_second_worker_is_silent :
  ~ (exists evs,
        stress_schedpolicy no_policies (worker 1) [] =
          Some (EXIT_NOT_IMPLEMENTED, evs)
        /\ count_if is_inf evs = 1%nat).
Proof.
  intros [evs [H Hc]]. vm_compute in H. inversion H; subst evs.
  vm_compute in Hc. discriminate.
Qed.

(** C9 (amended): with an empty policy table the entry point returns
    EXIT_NOT_IMPLEMENTED, which is neither EXIT_SUCCESS nor EXIT_FAILURE,
    never increments the operation counter, and prints its one
    informational message in worker instance 0 only; the other instances
    print nothing. *)
Theorem empty_table_not_implemented (plat : platform) (args : args_t)
    (oss : list os_iter) :
  policies plat = [] ->
  exists evs,
    stress_schedpolicy plat args oss = Some (EXIT_NOT_IMPLEMENTED, evs)
    /\ EXIT_NOT_IMPLEMENTED <> EXIT_FAILURE
    /\ EXIT_NOT_IMPLEMENTED <> EXIT_SUCCESS
    /\ count_if is_inc evs = 0%nat
    /\ count_if is_inf evs = (if instance args =? 0 then 1%nat else 0%nat).
Proof.
  intros Hp. unfold stress_schedpolicy. rewrite Hp. simpl.
  exists (if instance args =? 0 then [Pr_inf] else []).
  repeat split; try discriminate; destruct (instance args =? 0); reflexivity.
Qed.

Lemma empty_table_not_implemented_witness :
  exists evs,
    stress_schedpolicy no_policies (worker 0) [] =
      Some (EXIT_NOT_IMPLEMENTED, evs)
    /\ EXIT_NOT_IMPLEMENTED <> EXIT_FAILURE
    /\ EXIT_NOT_IMPLEMENTED <> EXIT_SUCCESS
    /\ count_if is_inc evs = 0%nat
    /\ count_if is_inf evs = 1%nat.
Proof.
  exact (empty_table_not_implemented no_policies (worker 0) [] eq_refl).
Defined.

(** ** The loop *)

Lemma loop_cons plat args os oss st :
  loop plat args (os :: oss) st =
    if keep_stressing os then
      match loop plat args oss (fst (body plat args os st)) with
      | Some (s, tr) => Some (s, snd (body plat args os st) ++ tr)
      | None => None
      end
    else Some (body plat args os st).
Proof.
  simpl. destruct (body plat args os st) as [st' evs]. reflexivity.
Qed.

(** The loop comes to an end as soon as [keep_stressing()] says so. *)
Lemma loop_total plat args oss :
  Exists (fun o => keep_stressing o = false) oss ->
  forall st, exists st' tr, loop plat args oss st = Some (st', tr).
Proof.
  induction 1 as [os oss Hk | os oss _ IH]; intros st; rewrite loop_cons.
  - rewrite Hk. destruct (body plat args os st) as [s tr]. eauto.
  - destruct (keep_stressing os).
    + destruct (IH (fst (body plat args os st))) as [s [tr ->]]. eauto.
    + destruct (body plat args os st) as [s tr]. eauto.
Qed.

(** While [keep_stressing()] holds the passes follow each other. *)
Lemma loop_app plat args pre :
  Forall (fun o => keep_stressing o = true) pre ->
  forall rest st,
    loop plat args (pre ++ rest) st =
      match loop plat args rest (iterate plat args pre st) with
      | Some (s, tr) => Some (s, trace plat args pre st ++ tr)
      | None => None
      end.
Proof.
  induction 1 as [| os pre Hk _ IH]; intros rest st.
  - simpl. destruct (loop plat args rest st) as [[s tr] |]; reflexivity.
  - rewrite <- app_comm_cons, loop_cons, Hk, IH. simpl.
    destruct (loop plat args rest _) as [[s tr] |]; [| reflexivity].
    rewrite app_assoc. reflexivity.
Qed.

(** Whatever happened in the loop, the status is EXIT_SUCCESS. *)
Lemma stress_schedpolicy_loop plat args oss st' tr :
  policies plat <> [] ->
  loop plat args oss init_state = Some (st', tr) ->
  stress_schedpolicy plat args oss = Some (EXIT_SUCCESS, tr).
Proof.
  intros Hp Hl. unfold stress_schedpolicy, SIZEOF_ARRAY.
  destruct (policies plat) as [| p ps] eqn:E; [congruence |].
  replace (Z.of_nat (length (p :: ps)) =? 0) with false
    by (symmetry; apply Z.eqb_neq; simpl length; lia).
  rewrite Hl. reflexivity.
Qed.

(** ** Reading the policy back *)

(** What one pass logs once the [switch] is left by [break] with a
    non-negative [ret] and the policy read back differs. *)
Lemma body_mismatch plat args os st ret errno effective errno' evs :
  switch_stmt plat os (policy st) (new_policy_of plat st)
    (target_pid args os) = Sw_break ret errno evs ->
  0 <= ret ->
  sched_getscheduler os (target_pid args os) = (effective, errno') ->
  0 <= effective ->
  effective <> new_policy_of plat st ->
  let tr := snd (body plat args os st) in
  In (E_getscheduler (target_pid args os)) tr
  /\ In (Pr_fail (Fail_getscheduler_policy (target_pid args os)
                    (new_policy_of plat st) effective)) tr
  /\ In Inc_counter tr
  /\ policy (fst (body plat args os st)) =
       (policy st + 1) mod SIZEOF_ARRAY (policies plat).
Proof.
  intros Hsw Hret Hget Heff Hne. unfold body. rewrite Hsw.
  unfold check_policy. rewrite Hget.
  replace (ret <? 0) with false by (symmetry; apply Z.ltb_ge; lia).
  replace (effective <? 0) with false by (symmetry; apply Z.ltb_ge; lia).
  replace (effective =? new_policy_of plat st) with false
    by (symmetry; apply Z.eqb_neq; exact Hne).
  assert (Hpol : policy (fst (sched_attr_block plat os (target_pid args os) st))
                 = policy st).
  { unfold sched_attr_block.
    destruct (HAVE_SCHED_ATTR plat); [| reflexivity].
    destruct (shim_sched_getattr os _) as [[r1 e1] [amin amax]].
    unfold track_util, cycle_down.
    destruct (negb (amax =? 0)); simpl;
      destruct (shim_sched_setattr os _ _ _) as [r2 e2]; simpl;
      match goal with |- context [if ?c then _ else _] => destruct c end;
      reflexivity. }
  destruct (sched_attr_block plat os (target_pid args os) st) as [st' evs4].
  simpl in Hpol. simpl. rewrite Hpol.
  repeat split; rewrite ?in_app_iff; simpl; rewrite ?in_app_iff; simpl; auto 10.
Qed.

(** C1, as the claim has it, fails: on Linux the first pass sets SCHED_IDLE
    (5) and reads back policy 0; the mismatch is reported, a second pass
    follows all the same and the entry point returns EXIT_SUCCESS. *)
Lemma mismatch_run_goes_on_and_succeeds :
  exists tr,
    stress_schedpolicy linux (worker 0) [calm 0 0 true; calm 0 1 false] =
      Some (EXIT_SUCCESS, tr)
    /\ In (Pr_fail (Fail_getscheduler_policy 0 5 0)) tr
    /\ count_if is_inc tr = 2%nat
    /\ EXIT_SUCCESS <> EXIT_FAILURE.
Proof.
  eexists. split; [vm_compute; reflexivity |].
  split; [simpl; auto 10 |]. split; [reflexivity | discriminate].
Qed.

(** C1 (amended): when the policy-set of a trial succeeds (the [switch] is
    left with a non-negative [ret]) the effective policy is re-queried and
    a mismatch is reported through [pr_fail]; the report does not end the
    run: the pass goes on to the operation-count increment and to the next
    policy, the loop continues for as long as [keep_stressing()] holds, and
    the entry point returns EXIT_SUCCESS. *)
Theorem policy_mismatch_reported_not_fatal (plat : platform) (args : args_t)
    (pre post : list os_iter) (os : os_iter)
    (ret errno effective errno' : Z) (evs : list event) :
  policies plat <> [] ->
  Forall (fun o => keep_stressing o = true) pre ->
  Exists (fun o => keep_stressing o = false) (os :: post) ->
  switch_stmt plat os (policy (iterate plat args pre init_state))
    (new_policy_of plat (iterate plat args pre init_state))
    (target_pid args os) = Sw_break ret errno evs ->
  0 <= ret ->
  sched_getscheduler os (target_pid args os) = (effective, errno') ->
  0 <= effective ->
  effective <> new_policy_of plat (iterate plat args pre init_state) ->
  let st := iterate plat args pre init_state in
  let report :=
    Pr_fail (Fail_getscheduler_policy (target_pid args os)
               (new_policy_of plat st) effective) in
  (In (E_getscheduler (target_pid args os)) (snd (body plat args os st))
   /\ In report (snd (body plat args os st))
   /\ In Inc_counter (snd (body plat args os st))
   /\ policy (fst (body plat args os st)) =
        (policy st + 1) mod SIZEOF_ARRAY (policies plat))
  /\ (keep_stressing os = true ->
      loop plat args (os :: post) st =
        match loop plat args post (fst (body plat args os st)) with
        | Some (s, tr) => Some (s, snd (body plat args os st) ++ tr)
        | None => None
        end)
  /\ exists tr,
       stress_schedpolicy plat args (pre ++ os :: post) =
         Some (EXIT_SUCCESS, tr)
       /\ In report tr.
Proof.
  intros Hp Hpre Hpost Hsw Hret Hget Heff Hne st report.
  pose proof (body_mismatch plat args os st ret errno effective errno' evs
                Hsw Hret Hget Heff Hne) as Hb.
  cbv zeta in Hb. split; [exact Hb |]. split.
  - intros Hk. rewrite loop_cons, Hk. reflexivity.
  - destruct (loop_total plat args (os :: post) Hpost st) as [s [tr Hl]].
    exists (trace plat args pre init_state ++ tr). split.
    + apply stress_schedpolicy_loop with (st' := s); [exact Hp |].
      rewrite loop_app by exact Hpre. fold st. rewrite Hl. reflexivity.
    + apply in_or_app. right.
      rewrite loop_cons in Hl. destruct Hb as [_ [Hr _]].
      destruct (keep_stressing os).
      * destruct (loop plat args post _) as [[s' tr'] |]; [| discriminate].
        inversion Hl; subst. apply in_or_app. left. exact Hr.
      * destruct (body plat args os st) as [s' tr'].
        inversion Hl; subst. exact Hr.
Qed.

Lemma policy_mismatch_reported_not_fatal_witness :
  exists tr,
    stress_schedpolicy linux (worker 0)
      ([calm 0 5 true] ++ calm 0 0 true :: [calm 0 1 false]) =
      Some (EXIT_SUCCESS, tr)
    /\ In (Pr_fail (Fail_getscheduler_policy 0 1 0)) tr.
Proof.
  refine (proj2 (proj2
    (policy_mismatch_reported_not_fatal linux (worker 0)
       [calm 0 5 true] [calm 0 1 false] (calm 0 0 true) 0 0 0 0
       [E_get_priority_min 1; E_get_priority_max 1; E_setscheduler 0 1 1]
       _ _ _ _ _ _ _ _))).
  - discriminate.
  - repeat constructor.
  - right. left. reflexivity.
  - vm_compute. reflexivity.
  - lia.
  - reflexivity.
  - lia.
  - vm_compute. discriminate.
Defined.

(** ** Realtime trials *)

(** Lines 111-112 ask about [policy], the index into the table, whereas
    line 130 sets [new_policy], the entry found there. *)
Lemma realtime_case_asks_index os idx new_policy pid_ ret errno :
  (exists rest,
     match realtime_case os idx new_policy pid_ ret errno with
     | Sw_continue evs | Sw_break _ _ evs =>
         evs = E_get_priority_min idx :: E_get_priority_max idx :: rest
         /\ forall p pol prio,
              In (E_setscheduler p pol prio) rest -> pol = new_policy
     end).
Proof.
  unfold realtime_case.
  destruct ((sched_get_priority_min os idx =? -1)
            || (sched_get_priority_max os idx =? -1)).
  - exists []. split; [reflexivity | intros ? ? ? []].
  - destruct (to_int32 _ =? 0).
    + eexists. split; [reflexivity |].
      intros p pol prio [H | []]. discriminate.
    + destruct (sched_setscheduler os pid_ new_policy _) as [r e].
      eexists. split; [reflexivity |].
      intros p pol prio [H | []]. inversion H. reflexivity.
Qed.

(** A realtime trial whose queried range reads as unsupported is left by
    [continue]: nothing is reported, no operation is counted, and the
    index stays where it is. *)
Lemma unsupported_range_is_skipped plat args os st :
  is_realtime plat (new_policy_of plat st) = true ->
  sched_get_priority_min os (policy st) = -1
  \/ sched_get_priority_max os (policy st) = -1 ->
  fst (body plat args os st) = st
  /\ count_if is_report (snd (body plat args os st)) = 0%nat
  /\ count_if is_inc (snd (body plat args os st)) = 0%nat.
Proof.
  intros Hrt Hun. unfold is_realtime in Hrt.
  apply andb_true_iff in Hrt. destruct Hrt as [Hn Hr].
  apply negb_true_iff in Hn.
  assert (Hskip : forall r e,
             realtime_case os (policy st) (new_policy_of plat st)
               (target_pid args os) r e =
             Sw_continue [E_get_priority_min (policy st);
                          E_get_priority_max (policy st)]).
  { intros r e. unfold realtime_case.
    replace ((sched_get_priority_min os (policy st) =? -1)
             || (sched_get_priority_max os (policy st) =? -1)) with true.
    - reflexivity.
    - symmetry. apply orb_true_iff.
      destruct Hun as [H | H]; [left | right]; apply Z.eqb_eq; exact H. }
  unfold body, switch_stmt. rewrite Hn.
  destruct (is_case (SCHED_RR plat) (new_policy_of plat st)).
  - destruct (HAVE_SCHED_RR_GET_INTERVAL plat).
    + destruct (sched_rr_get_interval os _) as [r e]. rewrite Hskip.
      repeat split.
    + rewrite Hskip. repeat split.
  - simpl in Hr. rewrite Hr, Hskip. repeat split.
Qed.

(** On Linux the mix-up of lines 111-112 does not show: the realtime
    policies sit in the table at the indices that are their own numbers. *)
Lemma linux_index_is_policy idx :
  is_realtime linux (nth (Z.to_nat idx) (policies linux) 0) = true ->
  0 <= idx -> nth (Z.to_nat idx) (policies linux) 0 = idx.
Proof.
  intros H Hi.
  destruct (Z.to_nat idx) as [| [| [| [| [| n]]]]] eqn:E;
    simpl in H |- *; try discriminate; try lia.
  destruct n; discriminate.
Qed.

(** C2, the code at a failing input: on FreeBSD the table starts with
    SCHED_FIFO (1), so the first trial asks for the priority range of
    policy number 0, the index, and sets policy number 1.  With a kernel
    that supports SCHED_FIFO with priorities 0..31 and knows no policy 0
    the trial is skipped although its own range is supported. *)
Theorem freebsd_fifo_range_asked_for_index (args : args_t) (os : os_iter) :
  new_policy_of freebsd init_state = 1
  /\ SCHED_FIFO freebsd = Some 1
  /\ (exists rest,
        snd (body freebsd args os init_state) =
          E_get_priority_min 0 :: E_get_priority_max 0 :: rest)
  /\ (forall ret errno evs p pol prio,
        switch_stmt freebsd os 0 1 (target_pid args os) =
          Sw_break ret errno evs ->
        In (E_setscheduler p pol prio) evs -> pol = 1)
  /\ sched_get_priority_min (bsd_kernel 7) 1 = 0
  /\ sched_get_priority_max (bsd_kernel 7) 1 = 31
  /\ body freebsd (worker 0) (bsd_kernel 7) init_state =
       (init_state, [E_get_priority_min 0; E_get_priority_max 0]).
Proof.
  assert (Hsw : forall pid_,
             switch_stmt freebsd os 0 1 pid_ = realtime_case os 0 1 pid_ 0 0)
    by reflexivity.
  split; [reflexivity |]. split; [reflexivity |]. split.
  - unfold body.
    change (new_policy_of freebsd init_state) with 1.
    change (policy init_state) with 0. rewrite Hsw.
    destruct (realtime_case_asks_index os 0 1 (target_pid args os) 0 0)
      as [rest Hr].
    destruct (realtime_case os 0 1 (target_pid args os) 0 0)
      as [evs | r e evs]; destruct Hr as [-> _].
    + eexists. reflexivity.
    + destruct (sched_attr_block _ _ _ _) as [st' evs4].
      eexists. simpl. reflexivity.
  - split.
    + intros ret errno evs p pol prio Hb Hin. rewrite Hsw in Hb.
      destruct (realtime_case_asks_index os 0 1 (target_pid args os) 0 0)
        as [rest Hr].
      rewrite Hb in Hr. destruct Hr as [-> Hpol].
      destruct Hin as [H | [H | H]]; try discriminate.
      exact (Hpol _ _ _ H).
    + repeat split.
Qed.

(** The value of lines 128-129 when the range is one of [int]s. *)
Lemma rng_priority_small rnd mn mx :
  - 2 ^ 31 <= mn -> mn < mx -> mx < 2 ^ 31 -> mx - mn < 2 ^ 31 ->
  rng_priority rnd (to_int32 (mx - mn)) mn = mn + to_uint32 rnd mod (mx - mn)
  /\ mn <= mn + to_uint32 rnd mod (mx - mn) <= mx - 1.
Proof.
  intros H1 H2 H3 H4. unfold rng_priority.
  rewrite (to_int32_small (mx - mn)) by lia.
  rewrite (to_uint32_small (mx - mn)) by lia.
  pose proof (Z.mod_pos_bound (to_uint32 rnd) (mx - mn) ltac:(lia)) as Hm.
  rewrite to_int32_to_uint32 by lia. lia.
Qed.

(** C3, as the claim has it, fails: with the SCHED_FIFO range 1..99 of
    Linux no value of the random source makes the trial set priority 99. *)
Lemma fifo_max_priority_never_set :
  ~ (exists rnd ret errno evs,
        realtime_case (calm rnd 1 true) 1 1 0 0 0 = Sw_break ret errno evs
        /\ In (E_setscheduler 0 1 99) evs).
Proof.
  intros [rnd [ret [errno [evs [H Hin]]]]].
  unfold realtime_case in H.
  cbn [sched_get_priority_min sched_get_priority_max calm mwc32
       sched_setscheduler] in H.
  change ((1 =? -1) || (99 =? -1)) with false in H. cbv iota in H.
  destruct (rng_priority_small rnd 1 99) as [Hv Hb]; try lia.
  change (to_int32 (99 - 1) =? 0) with false in H. cbv iota in H.
  rewrite Hv in H. clear Hv.
  remember (1 + to_uint32 rnd mod (99 - 1)) as v eqn:Ev.
  injection H as _ _ He. subst evs.
  destruct Hin as [Hi | [Hi | [Hi | []]]]; try discriminate.
  injection Hi as Hp. lia.
Qed.

(** C3 (amended): in a realtime trial whose queried range has min < max
    (neither bound being -1) the priority handed to the policy-set call is
    min + mwc32() mod (max - min): it lies in [min, max - 1], every value
    of [min, max - 1] is attained for some value of the random source, and
    max itself is attained for none. *)
Theorem realtime_priority_range (os : os_iter)
    (idx new_policy pid_ ret errno : Z) :
  sched_get_priority_min os idx <> -1 ->
  sched_get_priority_max os idx <> -1 ->
  - 2 ^ 31 <= sched_get_priority_min os idx ->
  sched_get_priority_min os idx < sched_get_priority_max os idx ->
  sched_get_priority_max os idx < 2 ^ 31 ->
  sched_get_priority_max os idx - sched_get_priority_min os idx < 2 ^ 31 ->
  let mn := sched_get_priority_min os idx in
  let mx := sched_get_priority_max os idx in
  (exists r e prio,
      realtime_case os idx new_policy pid_ ret errno =
        Sw_break r e [E_get_priority_min idx; E_get_priority_max idx;
                      E_setscheduler pid_ new_policy prio]
      /\ prio = rng_priority (mwc32 os) (to_int32 (mx - mn)) mn
      /\ mn <= prio <= mx - 1)
  /\ (forall v, mn <= v <= mx - 1 ->
        exists rnd, 0 <= rnd < 2 ^ 32
                    /\ rng_priority rnd (to_int32 (mx - mn)) mn = v)
  /\ (forall rnd, rng_priority rnd (to_int32 (mx - mn)) mn <> mx).
Proof.
  intros Hn1 Hn2 H1 H2 H3 H4 mn mx. fold mn in Hn1, H1, H2, H4.
  fold mx in Hn2, H2, H3, H4. split; [| split].
  - unfold realtime_case. fold mn. fold mx.
    replace ((mn =? -1) || (mx =? -1)) with false.
    2:{ symmetry. apply orb_false_iff. split; apply Z.eqb_neq; assumption. }
    replace (to_int32 (mx - mn) =? 0) with false.
    2:{ symmetry. apply Z.eqb_neq. rewrite to_int32_small; lia. }
    destruct (sched_setscheduler os pid_ new_policy _) as [r e] eqn:E.
    exists r, (if r <? 0 then e else errno),
      (rng_priority (mwc32 os) (to_int32 (mx - mn)) mn).
    split; [reflexivity |]. split; [reflexivity |].
    destruct (rng_priority_small (mwc32 os) mn mx) as [-> Hb]; lia.
  - intros v Hv. exists (v - mn). split; [lia |].
    destruct (rng_priority_small (v - mn) mn mx) as [-> _]; try lia.
    rewrite to_uint32_small by lia. rewrite Z.mod_small by lia. lia.
  - intros rnd.
    destruct (rng_priority_small rnd mn mx) as [-> Hb]; lia.
Qed.

Lemma realtime_priority_range_witness :
  (exists r e prio,
      realtime_case (calm 5 1 true) 1 1 0 0 0 =
        Sw_break r e [E_get_priority_min 1; E_get_priority_max 1;
                      E_setscheduler 0 1 prio]
      /\ prio = rng_priority 5 (to_int32 (99 - 1)) 1
      /\ 1 <= prio <= 99 - 1)
  /\ (forall v, 1 <= v <= 99 - 1 ->
        exists rnd, 0 <= rnd < 2 ^ 32
                    /\ rng_priority rnd (to_int32 (99 - 1)) 1 = v)
  /\ (forall rnd, rng_priority rnd (to_int32 (99 - 1)) 1 <> 99).
Proof.
  apply (realtime_priority_range (calm 5 1 true) 1 1 0 0 0);
    simpl; lia.
Defined.

(** ** The utilisation clamp *)

Lemma realtime_case_breaks os idx new_policy pid_ ret errno :
  ranges_supported os ->
  exists r e evs,
    realtime_case os idx new_policy pid_ ret errno = Sw_break r e evs.
Proof.
  intros Hs. destruct (Hs idx) as [Hmin Hmax]. unfold realtime_case.
  replace ((sched_get_priority_min os idx =? -1)
           || (sched_get_priority_max os idx =? -1)) with false.
  2:{ symmetry. apply orb_false_iff. split; apply Z.eqb_neq; assumption. }
  destruct (to_int32 _ =? 0); [eauto |].
  destruct (sched_setscheduler os pid_ new_policy _) as [r e]. eauto.
Qed.

Lemma switch_stmt_breaks plat os idx new_policy pid_ :
  ranges_supported os ->
  exists r e evs, switch_stmt plat os idx new_policy pid_ = Sw_break r e evs.
Proof.
  intros Hs. unfold switch_stmt.
  destruct (is_case (SCHED_IDLE plat) new_policy
            || is_case (SCHED_BATCH plat) new_policy
            || is_case (SCHED_OTHER plat) new_policy).
  { destruct (sched_setscheduler os pid_ new_policy 0) as [r e]. eauto. }
  destruct (is_case (SCHED_RR plat) new_policy).
  { destruct (HAVE_SCHED_RR_GET_INTERVAL plat).
    - destruct (sched_rr_get_interval os pid_) as [r e].
      destruct (realtime_case_breaks os idx new_policy pid_ r
                  (if r <? 0 then e else 0) Hs) as [r' [e' [evs ->]]].
      eauto.
    - apply realtime_case_breaks, Hs. }
  destruct (is_case (SCHED_FIFO plat) new_policy);
    [apply realtime_case_breaks, Hs | eauto].
Qed.

Lemma sched_attr_block_state plat os pid_ st :
  fst (sched_attr_block plat os pid_ st) =
    if HAVE_SCHED_ATTR plat then
      cycle_down (fst (track_util st (fst (snd (shim_sched_getattr os pid_)))
                                     (snd (snd (shim_sched_getattr os pid_)))))
    else st.
Proof.
  unfold sched_attr_block. destruct (HAVE_SCHED_ATTR plat); [| reflexivity].
  destruct (shim_sched_getattr os pid_) as [[r1 e1] [amin amax]]. simpl.
  destruct (track_util st amin amax) as [st1 amax'].
  destruct (shim_sched_setattr os pid_ amin amax') as [r2 e2]. reflexivity.
Qed.

(** The state a pass leaves: untouched after [continue], else run through
    lines 186-223 and moved to the next policy. *)
Lemma body_state plat args os st :
  fst (body plat args os st) = st
  \/ fst (body plat args os st) =
       next_policy plat
         (if HAVE_SCHED_ATTR plat then
            cycle_down (fst (track_util st (fst (attr_read args os))
                                           (snd (attr_read args os))))
          else st).
Proof.
  unfold body, attr_read.
  destruct (switch_stmt plat os _ _ _) as [evs | r e evs]; [left; reflexivity |].
  right. rewrite <- sched_attr_block_state.
  destruct (sched_attr_block plat os (target_pid args os) st). reflexivity.
Qed.

Lemma body_state_supported plat args os st :
  HAVE_SCHED_ATTR plat = true ->
  ranges_supported os ->
  fst (body plat args os st) =
    next_policy plat
      (cycle_down (fst (track_util st (fst (attr_read args os))
                                      (snd (attr_read args os))))).
Proof.
  intros Hh Hs. unfold body, attr_read.
  destruct (switch_stmt_breaks plat os (policy st) (new_policy_of plat st)
              (target_pid args os) Hs) as [r [e [evs ->]]].
  pose proof (sched_attr_block_state plat os (target_pid args os) st) as Hb.
  rewrite Hh in Hb. rewrite <- Hb.
  destruct (sched_attr_block plat os (target_pid args os) st). reflexivity.
Qed.

(** The comparisons of lines 191-197, innermost first. *)
Ltac track_cases st amin amax :=
  destruct (Z.gtb_spec (sched_util_min st) amin);
  destruct (Z.ltb_spec (sched_util_max st) amax);
  repeat match goal with
         | |- context [if ?a >? ?b then _ else _] =>
             destruct (Z.gtb_spec a b)
         end;
  simpl; lia.

(** Lines 186-204 keep a value that is set and never raise the minimum. *)
Lemma track_util_set st amin amax :
  0 < sched_util_max_value st ->
  let st1 := fst (track_util st amin amax) in
  sched_util_max_value st1 = sched_util_max_value st
  /\ sched_util_min st1 <= sched_util_min st
  /\ counter st1 = counter st.
Proof.
  intros Hv. unfold track_util.
  destruct (negb (amax =? 0)); simpl; [| lia].
  replace (sched_util_max_value st =? 0) with false
    by (symmetry; apply Z.eqb_neq; lia).
  repeat split.
  track_cases st amin amax.
Qed.

(** Lines 186-204 re-establish the floor, also for the value written. *)
Lemma track_util_floor st amin amax :
  floor_holds st ->
  floor_holds (fst (track_util st amin amax))
  /\ (amax <> 0 ->
      sched_util_min (fst (track_util st amin amax))
        <= snd (track_util st amin amax)
      /\ snd (track_util st amin amax)
         = sched_util_max_value (fst (track_util st amin amax))).
Proof.
  unfold floor_holds, track_util. intros Hf.
  destruct (Z.eqb_spec amax 0) as [-> | Hne]; simpl.
  { split; [exact Hf | congruence]. }
  assert (sched_util_max_value st = 0 \/ sched_util_max_value st <> 0)
    as [Hz | Hz] by lia.
  - rewrite Hz. simpl.
    track_cases st amin amax.
  - replace (sched_util_max_value st =? 0) with false
      by (symmetry; apply Z.eqb_neq; exact Hz).
    track_cases st amin amax.
Qed.

(** Lines 218-223 below the threshold: only the counter moves. *)
Lemma cycle_down_counts st :
  0 <= counter st <= 256 ->
  cycle_down st =
    {| policy := policy st;
       sched_util_min := sched_util_min st;
       sched_util_max := sched_util_max st;
       sched_util_max_value := sched_util_max_value st;
       counter := counter st + 1 |}.
Proof.
  intros Hc. unfold cycle_down.
  destruct (Z.gtb_spec (counter st) 256); [lia |].
  simpl. rewrite to_int32_small by lia. reflexivity.
Qed.

(** Lines 218-223 past the threshold. *)
Lemma cycle_down_fires st :
  256 < counter st ->
  0 < sched_util_max_value st ->
  sched_util_min st < sched_util_max_value st ->
  cycle_down st =
    {| policy := policy st;
       sched_util_min := sched_util_min st;
       sched_util_max := sched_util_max st;
       sched_util_max_value := sched_util_max_value st - 1;
       counter := 0 |}.
Proof.
  intros Hc Hv Hm. unfold cycle_down.
  destruct (Z.gtb_spec (counter st) 256); [| lia].
  destruct (Z.gtb_spec (sched_util_max_value st) 0); [| lia].
  destruct (Z.gtb_spec (sched_util_max_value st) (sched_util_min st));
    [reflexivity | lia].
Qed.

Lemma cycle_down_floor st : floor_holds st -> floor_holds (cycle_down st).
Proof.
  unfold floor_holds, cycle_down. intros Hf.
  destruct (counter st >? 256); simpl; [| exact Hf].
  destruct (Z.gtb_spec (sched_util_max_value st) 0); simpl; [| exact Hf].
  destruct (Z.gtb_spec (sched_util_max_value st) (sched_util_min st));
    simpl; lia.
Qed.

(** The floor holds after every pass of every run. *)
Lemma floor_invariant plat args oss :
  forall st, floor_holds st -> floor_holds (iterate plat args oss st).
Proof.
  induction oss as [| os oss IH]; intros st Hf; [exact Hf |].
  simpl. apply IH.
  destruct (body_state plat args os st) as [-> | ->]; [exact Hf |].
  destruct (HAVE_SCHED_ATTR plat); [| exact Hf].
  apply (cycle_down_floor
           (fst (track_util st (fst (attr_read args os))
                               (snd (attr_read args os))))).
  apply track_util_floor, Hf.
Qed.

(** Passes that do not reach the threshold leave the value alone. *)
Lemma passes_below_threshold plat args oss :
  HAVE_SCHED_ATTR plat = true ->
  Forall ranges_supported oss ->
  forall st,
    0 <= counter st ->
    counter st + Z.of_nat (length oss) <= 257 ->
    0 < sched_util_max_value st ->
    sched_util_min st < sched_util_max_value st ->
    counter (iterate plat args oss st) = counter st + Z.of_nat (length oss)
    /\ sched_util_max_value (iterate plat args oss st)
       = sched_util_max_value st
    /\ sched_util_min (iterate plat args oss st) <= sched_util_min st.
Proof.
  intros Hh. induction 1 as [| os oss Hs _ IH]; intros st Hc Hl Hv Hm.
  { simpl. lia. }
  simpl iterate. simpl length in Hl |- *.
  rewrite (body_state_supported plat args os st Hh Hs).
  destruct (track_util_set st (fst (attr_read args os))
              (snd (attr_read args os)) Hv) as [E1 [E2 E3]].
  set (st1 := fst (track_util st _ _)) in *.
  rewrite (cycle_down_counts st1) by lia.
  match goal with |- context [iterate plat args oss ?s] =>
    destruct (IH s) as [F1 [F2 F3]]; simpl in *; try lia
  end.
Qed.

(** C4, as the claim has it, fails: with clamps 0..1024 read back on every
    pass the value applied is 1024 after the first pass and still 1024
    after the 257th; it drops to 1023 with the 258th pass, stays there for
    the next 257 passes and drops to 1022 with the 516th. *)
Lemma clamp_unchanged_after_257_passes :
  let value n :=
    sched_util_max_value
      (iterate linux (worker 0) (repeat (calm 0 5 true) n) init_state) in
  value 1%nat = 1024 /\ value 257%nat = 1024 /\ value 258%nat = 1023
  /\ value 515%nat = 1023 /\ value 516%nat = 1022
  /\ value 257%nat <> value 1%nat - 1.
Proof.
  vm_compute. repeat split; discriminate.
Qed.

(** C4 (amended): with the clamp interface present, no trial skipped and
    the smallest clamp seen strictly below the current value, the value
    applied stays as it is for 257 passes after a cycle-down and is
    decremented by exactly 1 by the 258th pass, which also resets the
    counter; and in every run a value that has been set is never below the
    smallest clamp seen, neither in the state nor when it is written. *)
Theorem clamp_cycles_down_every_258 (plat : platform) (args : args_t)
    (st : state) (oss : list os_iter) (last : os_iter) :
  HAVE_SCHED_ATTR plat = true ->
  Forall ranges_supported (oss ++ [last]) ->
  length oss = 257%nat ->
  counter st = 0 ->
  0 < sched_util_max_value st ->
  sched_util_min st < sched_util_max_value st ->
  (forall k, (k <= 257)%nat ->
     sched_util_max_value (iterate plat args (firstn k oss) st)
     = sched_util_max_value st)
  /\ sched_util_max_value (iterate plat args (oss ++ [last]) st)
     = sched_util_max_value st - 1
  /\ counter (iterate plat args (oss ++ [last]) st) = 0
  /\ (forall run, floor_holds (iterate plat args run init_state))
  /\ (forall run amin amax,
        amax <> 0 ->
        let st1 := fst (track_util (iterate plat args run init_state)
                          amin amax) in
        sched_util_min st1 <= snd (track_util
                                     (iterate plat args run init_state)
                                     amin amax)).
Proof.
  intros Hh Hs Hlen Hc Hv Hm.
  apply Forall_app in Hs. destruct Hs as [Hs Hl].
  apply Forall_inv in Hl.
  assert (Hinit : floor_holds init_state) by (left; reflexivity).
  split; [| split; [| split; [| split]]].
  - intros k Hk.
    assert (Hf : Forall ranges_supported (firstn k oss)).
    { rewrite <- (firstn_skipn k oss) in Hs.
      apply Forall_app in Hs. apply Hs. }
    pose proof (firstn_le_length k oss) as Hle.
    destruct (passes_below_threshold plat args (firstn k oss) Hh Hf st)
      as [_ [E _]]; lia.
  - destruct (passes_below_threshold plat args oss Hh Hs st)
      as [E1 [E2 E3]]; try lia.
    assert (Hit : forall l s, iterate plat args (l ++ [last]) s
                  = fst (body plat args last (iterate plat args l s))).
    { induction l as [| a l IHl]; intros s; [reflexivity | apply IHl]. }
    rewrite Hit, (body_state_supported plat args last _ Hh Hl).
    set (s := iterate plat args oss st) in *.
    destruct (track_util_set s (fst (attr_read args last))
                (snd (attr_read args last))) as [G1 [G2 G3]]; [lia |].
    rewrite cycle_down_fires by lia. simpl. lia.
  - destruct (passes_below_threshold plat args oss Hh Hs st)
      as [E1 [E2 E3]]; try lia.
    assert (Hit : forall l s, iterate plat args (l ++ [last]) s
                  = fst (body plat args last (iterate plat args l s))).
    { induction l as [| a l IHl]; intros s; [reflexivity | apply IHl]. }
    rewrite Hit, (body_state_supported plat args last _ Hh Hl).
    set (s := iterate plat args oss st) in *.
    destruct (track_util_set s (fst (attr_read args last))
                (snd (attr_read args last))) as [G1 [G2 G3]]; [lia |].
    rewrite cycle_down_fires by lia. reflexivity.
  - intros run. apply floor_invariant, Hinit.
  - intros run amin amax Hne st1.
    apply (track_util_floor (iterate plat args run init_state) amin amax);
      [apply floor_invariant, Hinit | exact Hne].
Qed.

Lemma calm_ranges_supported rnd eff keep : ranges_supported (calm rnd eff keep).
Proof. intros p. split; discriminate. Qed.

Lemma clamp_cycles_down_every_258_witness :
  sched_util_max_value
    (iterate linux (worker 0) (repeat (calm 0 5 true) 257 ++ [calm 0 5 true])
       clamped)
  = sched_util_max_value clamped - 1
  /\ sched_util_max_value
       (iterate linux (worker 0) (firstn 257 (repeat (calm 0 5 true) 257))
          clamped)
     = sched_util_max_value clamped.
Proof.
  assert (Hs : Forall ranges_supported
                 (repeat (calm 0 5 true) 257 ++ [calm 0 5 true])).
  { apply Forall_forall. intros o Ho. apply in_app_or in Ho.
    destruct Ho as [Ho | [<- | []]];
      [apply repeat_spec in Ho; subst o |]; apply calm_ranges_supported. }
  pose proof (clamp_cycles_down_every_258 linux (worker 0) clamped
                (repeat (calm 0 5 true) 257) (calm 0 5 true)
                eq_refl Hs (repeat_length _ 257) eq_refl
                ltac:(simpl; lia) ltac:(simpl; lia)) as [H1 [H2 _]].
  split; [exact H2 | apply H1; lia].
Defined.

End SchedPolicyFacts.

Module SigHupFacts.
Import SigHup.

(** ** The handler *)

Lemma handle_cases now i :
  handle now i =
    if (0 <? t_start i)%float && (0 <? now - t_start i)%float then
      {| signalled := true; pid := pid i;
         count := (count i + 1)%float;
         t_start := t_start i;
         latency := (latency i + (now - t_start i))%float |}
    else set_signalled true i.
Proof. reflexivity. Qed.

(** A trial in flight, 1.5 s after its start: one sample is taken. *)
Example handler_in_trial :
  handle 3.5%float (set_t_start 2%float zero_info) =
    {| signalled := true; pid := 0; count := 1%float;
       t_start := 2%float; latency := 1.5%float |}.
Proof. reflexivity. Qed.

(** C8: the handler adds to [latency] and [count] only when [t_start] is
    above 0.0 as the signal lands; with [t_start] at 0.0 (or anything else
    that is not above 0.0) it leaves both as they are. *)
Theorem handler_accumulates_only_in_trial (now : float)
    (i : stress_sighup_info_t) :
  exists i',
    stress_sighup_handler now (Some i) = Some i'
    /\ (t_start i = 0%float ->
        latency i' = latency i /\ count i' = count i)
    /\ ((0 <? t_start i)%float = false ->
        latency i' = latency i /\ count i' = count i)
    /\ (latency i' <> latency i \/ count i' <> count i ->
        (0 <? t_start i)%float = true).
Proof.
  exists (handle now i). split; [reflexivity |].
  assert (Hoff : (0 <? t_start i)%float = false ->
                 latency (handle now i) = latency i
                 /\ count (handle now i) = count i).
  { intros H. rewrite handle_cases, H. split; reflexivity. }
  split; [| split].
  - intros H0. apply Hoff. rewrite H0. reflexivity.
  - exact Hoff.
  - intros Hch. destruct (0 <? t_start i)%float; [reflexivity |].
    destruct (Hoff eq_refl) as [H1 H2]. destruct Hch; contradiction.
Qed.

Lemma handler_accumulates_only_in_trial_witness :
  exists i',
    stress_sighup_handler 3.5%float (Some zero_info) = Some i'
    /\ latency i' = latency zero_info /\ count i' = count zero_info.
Proof.
  destruct (handler_accumulates_only_in_trial 3.5%float zero_info)
    as [i' [H [H0 _]]].
  exists i'. split; [exact H | exact (H0 eq_refl)].
Defined.

(** The run of deliveries adds up the accepted latencies, one by one. *)
Lemma deliveries_sum sigs :
  forall i,
    latency (deliveries sigs i) =
      fold_left (fun acc l => (acc + l)%float) (accepted sigs) (latency i)
    /\ count (deliveries sigs i) =
         fold_left (fun acc _ => (acc + 1)%float) (accepted sigs) (count i).
Proof.
  induction sigs as [| [start now] sigs IH]; intros i; [split; reflexivity |].
  simpl deliveries. simpl accepted.
  destruct (IH (handle now (set_t_start start i))) as [-> ->].
  rewrite handle_cases. simpl t_start.
  destruct ((0 <? start)%float && (0 <? now - start)%float);
    split; reflexivity.
Qed.

Lemma accepted_positive sigs :
  Forall (fun l => (0 <? l)%float = true) (accepted sigs).
Proof.
  induction sigs as [| [start now] sigs IH]; [constructor |].
  simpl. destruct (0 <? start)%float; simpl; [| exact IH].
  destruct (0 <? now - start)%float eqn:E; [| exact IH].
  constructor; assumption.
Qed.

(** C10: with the block mapped the handler always sets [signalled], trial
    or no trial; it adds a sample exactly when [t_start] and the computed
    latency are both above 0.0, and then adds the latency to [latency] and
    1.0 to [count] together; so over any run of deliveries [latency] grows
    by the sum of strictly positive terms and [count] by 1.0 for each of
    those same terms. *)
Theorem handler_signals_and_sums_positive (now : float)
    (i : stress_sighup_info_t) :
  stress_sighup_handler now (Some i) = Some (handle now i)
  /\ signalled (handle now i) = true
  /\ (if (0 <? t_start i)%float && (0 <? now - t_start i)%float
      then latency (handle now i) = (latency i + (now - t_start i))%float
           /\ count (handle now i) = (count i + 1)%float
      else latency (handle now i) = latency i
           /\ count (handle now i) = count i)
  /\ latency (handle 1%float (set_t_start 2%float i)) = latency i
  /\ count (handle 1%float (set_t_start 2%float i)) = count i
  /\ forall sigs,
       latency (deliveries sigs i) =
         fold_left (fun acc l => (acc + l)%float) (accepted sigs) (latency i)
       /\ count (deliveries sigs i) =
            fold_left (fun acc _ => (acc + 1)%float) (accepted sigs) (count i)
       /\ Forall (fun l => (0 <? l)%float = true) (accepted sigs).
Proof.
  split; [reflexivity |]. split.
  { rewrite handle_cases.
    destruct ((0 <? t_start i)%float && (0 <? now - t_start i)%float);
      reflexivity. }
  split.
  { rewrite handle_cases.
    destruct ((0 <? t_start i)%float && (0 <? now - t_start i)%float);
      split; reflexivity. }
  split; [reflexivity |]. split; [reflexivity |].
  intros sigs. destruct (deliveries_sum sigs i) as [H1 H2].
  split; [exact H1 |]. split; [exact H2 | apply accepted_positive].
Qed.

(** ** Waiting for the child *)

Lemma prepend_prepend evs evs' r :
  prepend evs (prepend evs' r) = prepend (evs ++ evs') r.
Proof.
  destruct r as [[[o i] tr] |]; [| reflexivity].
  simpl. rewrite app_assoc. reflexivity.
Qed.

Lemma interrupted_spec w :
  interrupted w = true <-> wait_ret w < 0 /\ wait_errno w = EINTR.
Proof.
  unfold interrupted. rewrite andb_true_iff, Z.ltb_lt, Z.eqb_eq. tauto.
Qed.

(** Interrupted waits are gone through one after the other. *)
Lemma raise_signal_rewait_retries pid_ intr :
  Forall (fun w => interrupted w = true) intr ->
  forall ws i,
    raise_signal_rewait pid_ (intr ++ ws) i =
      prepend (repeat (E_waitpid pid_) (length intr))
        (raise_signal_rewait pid_ ws (shared_after intr i)).
Proof.
  induction 1 as [| w intr Hw _ IH]; intros ws i.
  - simpl. destruct (raise_signal_rewait pid_ ws i) as [[[o i'] tr] |];
      reflexivity.
  - apply interrupted_spec in Hw. destruct Hw as [Hr He].
    simpl. apply Z.ltb_lt in Hr. apply Z.eqb_eq in He. rewrite Hr, He, IH.
    apply prepend_prepend.
Qed.

Lemma process_group_rewait_retries pid_ intr :
  Forall (fun w => interrupted w = true) intr ->
  forall ws i,
    process_group_rewait pid_ (intr ++ ws) i =
      prepend (repeat (E_waitpid pid_) (length intr))
        (process_group_rewait pid_ ws (shared_after intr i)).
Proof.
  induction 1 as [| w intr Hw _ IH]; intros ws i.
  - simpl. destruct (process_group_rewait pid_ ws i) as [[[o i'] tr] |];
      reflexivity.
  - apply interrupted_spec in Hw. destruct Hw as [Hr He].
    simpl. apply Z.ltb_lt in Hr. apply Z.eqb_eq in He. rewrite Hr, He, IH.
    apply prepend_prepend.
Qed.

(** The child of variant A, with the handler in place, sets the flag. *)
Lemma raise_signal_child_signals c i now :
  raise_hup c = Handler_runs now ->
  raise_signal_child c i =
    (Exits 0, handle now (set_t_start (time_now c) i),
     [E_sighandler SIGHUP; E_raise SIGHUP])
  /\ signalled (handle now (set_t_start (time_now c) i)) = true.
Proof.
  intros H. unfold raise_signal_child. rewrite H. split; [reflexivity |].
  rewrite handle_cases.
  destruct ((0 <? _)%float && (0 <? _)%float); reflexivity.
Qed.

(** C5: in variant A the parent calls [waitpid] again whenever it fails
    with EINTR; a failure with any other errno is reported and the trial
    returns EXIT_FAILURE; and once the wait has come back the trial
    reports that the handler was not called and returns EXIT_FAILURE if
    [signalled] is still false, and returns 0 without a report if it is
    true. *)
Theorem raise_signal_wait_verdict (pid_ : Z) (intr ws : list wait_try)
    (w : wait_try) (i : stress_sighup_info_t) :
  Forall (fun w => interrupted w = true) intr ->
  interrupted w = false ->
  let i' := wait_shared w (shared_after intr i) in
  let again := repeat (E_waitpid pid_) (length intr) in
  exists rc evs,
    raise_signal_rewait pid_ (intr ++ w :: ws) i =
      Some (Returns rc, i', again ++ E_waitpid pid_ :: evs)
    /\ (wait_ret w < 0 ->
        rc = EXIT_FAILURE /\ evs = [Pr_fail (Fail_waitpid (wait_errno w))])
    /\ (0 <= wait_ret w ->
        (signalled i' = false ->
         rc = EXIT_FAILURE /\ evs = [Pr_fail Fail_not_signalled])
        /\ (signalled i' = true -> rc = 0 /\ evs = [])
        /\ (In (Pr_fail Fail_not_signalled) evs <-> signalled i' = false)
        /\ (rc = EXIT_FAILURE <-> signalled i' = false)).
Proof.
  intros Hintr Hw i' again.
  rewrite (raise_signal_rewait_retries pid_ intr Hintr). fold again.
  unfold interrupted in Hw. simpl raise_signal_rewait. fold i'.
  destruct (Z.ltb_spec (wait_ret w) 0) as [Hneg | Hpos].
  - simpl in Hw. rewrite Hw. simpl.
    exists EXIT_FAILURE, [Pr_fail (Fail_waitpid (wait_errno w))].
    split; [reflexivity |]. split; [auto | lia].
  - destruct (signalled i') eqn:Es; simpl.
    + exists 0, []. split; [reflexivity |]. split; [lia |]. intros _.
      repeat split; try discriminate; try tauto; intros H;
        try discriminate H; destruct H.
    + exists EXIT_FAILURE, [Pr_fail Fail_not_signalled].
      split; [reflexivity |]. split; [lia |]. intros _.
      repeat split; try discriminate; simpl; auto.
Qed.

Lemma raise_signal_wait_verdict_witness :
  exists rc evs,
    raise_signal_rewait 77
      ([wait_eintr; wait_eintr]
       ++ wait_done (fun i => handle 3.5%float (set_t_start 2%float i))
       :: []) (set_signalled false zero_info) =
      Some (Returns rc,
            handle 3.5%float (set_t_start 2%float zero_info),
            [E_waitpid 77; E_waitpid 77] ++ E_waitpid 77 :: evs)
    /\ rc = 0 /\ evs = [].
Proof.
  destruct (raise_signal_wait_verdict 77 [wait_eintr; wait_eintr] []
              (wait_done (fun i => handle 3.5%float (set_t_start 2%float i)))
              (set_signalled false zero_info))
    as [rc [evs [H [_ Hok]]]].
  - repeat constructor.
  - reflexivity.
  - exists rc, evs. split; [exact H |].
    apply Hok; [simpl; lia | reflexivity].
Defined.

(** ** Cleaning up after child B *)

(** Child A records the pid of child B before it does anything else. *)
Lemma child_a_records_pid c i :
  0 <= pipe_ret c -> 0 < fork2_ret c ->
  pid (snd (fst (process_group_child c i))) = fork2_ret c.
Proof.
  intros Hp Hf. unfold process_group_child.
  destruct (Z.ltb_spec (pipe_ret c) 0); [lia |].
  destruct (Z.ltb_spec (fork2_ret c) 0); [lia |].
  destruct (Z.eqb_spec (fork2_ret c) 0); [lia |].
  unfold process_group_child_a.
  destruct (sys_read _ _ 0) as [k |]; [| reflexivity].
  destruct (k <? 1); reflexivity.
Qed.

(** C6: in variant B, once child A is forked, the parent leaves through
    [waitpid]: interrupted waits are repeated, and on both ways out, the
    failed wait (EXIT_FAILURE) and the successful one (0), the last thing
    done is [stress_kill_pid_wait] on the pid recorded in the shared block
    if that pid is not 0; with pid 0 nothing is killed. *)
Theorem process_group_parent_cleans_up (f : fork_try) (fs : list fork_try)
    (t : trial_os) (intr ws : list wait_try) (w : wait_try)
    (i : stress_sighup_info_t) :
  0 < fork_ret f ->
  waits t = intr ++ w :: ws ->
  Forall (fun w => interrupted w = true) intr ->
  interrupted w = false ->
  let i' := wait_shared w (shared_after intr i) in
  let again := repeat (E_waitpid (fork_ret f)) (length intr) in
  let report :=
    if wait_ret w <? 0 then [Pr_fail (Fail_waitpid (wait_errno w))]
    else [] in
  process_group_again (f :: fs) t i =
    Some (Returns (if wait_ret w <? 0 then EXIT_FAILURE else 0), i',
          E_fork :: again ++ E_waitpid (fork_ret f) :: report
            ++ kill_recorded i')
  /\ (pid i' <> 0 -> kill_recorded i' = [E_kill_pid_wait (pid i')])
  /\ (pid i' = 0 -> kill_recorded i' = []).
Proof.
  intros Hf Hws Hintr Hw i' again report. split.
  - simpl process_group_again.
    destruct (Z.ltb_spec (fork_ret f) 0); [lia |].
    destruct (Z.eqb_spec (fork_ret f) 0); [lia |].
    rewrite Hws, (process_group_rewait_retries _ intr Hintr).
    fold again. simpl process_group_rewait. fold i'.
    unfold interrupted in Hw. unfold report.
    destruct (wait_ret w <? 0); simpl in Hw |- *.
    + rewrite Hw. simpl. reflexivity.
    + reflexivity.
  - unfold kill_recorded. split; intros H.
    + destruct (Z.eqb_spec (pid i') 0); [contradiction | reflexivity].
    + rewrite H. reflexivity.
Qed.

Lemma process_group_parent_cleans_up_witness :
  process_group_again
    [{| fork_ret := 77; fork_errno := 0;
        stress_redo_fork := false; stress_continue := true |}]
    {| stress_mwc1 := false; forks := [];
       waits := [wait_eintr] ++
                wait_done
                  (fun i => snd (fst (process_group_child (a_child 0) i)))
                :: [];
       child := a_child 0; continue_after := true |}
    (set_pid 0 zero_info)
  = Some (Returns 0,
          {| signalled := false; pid := 78; count := 0%float;
             t_start := 2%float; latency := 0%float |},
          [E_fork; E_waitpid 77; E_waitpid 77; E_kill_pid_wait 78]).
Proof.
  exact (proj1
    (process_group_parent_cleans_up
       {| fork_ret := 77; fork_errno := 0;
          stress_redo_fork := false; stress_continue := true |} []
       {| stress_mwc1 := false; forks := [];
          waits := [wait_eintr] ++
                   wait_done
                     (fun i => snd (fst (process_group_child (a_child 0) i)))
                   :: [];
          child := a_child 0; continue_after := true |}
       [wait_eintr] []
       (wait_done (fun i => snd (fst (process_group_child (a_child 0) i))))
       (set_pid 0 zero_info)
       eq_refl eq_refl
       (Forall_cons wait_eintr (eq_refl : interrupted wait_eintr = true)
          (Forall_nil _))
       eq_refl)).
Defined.

(** ** The zero-length read *)

Lemma sys_read_zero buffered error :
  exists n, sys_read buffered error 0 = Read_ret n /\ n < 1.
Proof.
  unfold sys_read. destruct error; eexists; split; try reflexivity; lia.
Qed.

(** C7: a read of zero bytes neither blocks nor returns data, so child A,
    once the pipe and child B exist, always records [t_start] and sends
    itself SIGKILL, whatever child B has written to the pipe by then. *)
Theorem child_a_always_kills_itself (c : child_os)
    (i : stress_sighup_info_t) :
  0 <= pipe_ret c ->
  0 < fork2_ret c ->
  (forall buffered error,
      exists n, sys_read buffered error 0 = Read_ret n /\ n < 1)
  /\ process_group_child c i =
       (Killed_by SIGKILL,
        set_t_start (time_now c) (set_pid (fork2_ret c)
                                    (set_t_start 0%float i)),
        [E_pipe; E_fork; E_setpgid (fork2_ret c) 0; E_read 0;
         E_kill (getpid c) SIGKILL]).
Proof.
  intros Hp Hf. split; [exact sys_read_zero |].
  unfold process_group_child.
  destruct (Z.ltb_spec (pipe_ret c) 0); [lia |].
  destruct (Z.ltb_spec (fork2_ret c) 0); [lia |].
  destruct (Z.eqb_spec (fork2_ret c) 0); [lia |].
  unfold process_group_child_a.
  destruct (sys_read_zero (pipe_buffered c) (read_error c)) as [k [-> Hk]].
  destruct (Z.ltb_spec k 1); [reflexivity | lia].
Qed.

Lemma child_a_always_kills_itself_witness :
  process_group_child (a_child 0) zero_info =
    process_group_child (a_child 1) zero_info
  /\ process_group_child (a_child 1) zero_info =
       (Killed_by SIGKILL,
        {| signalled := false; pid := 78; count := 0%float;
           t_start := 2%float; latency := 0%float |},
        [E_pipe; E_fork; E_setpgid 78 0; E_read 0; E_kill 77 SIGKILL]).
Proof.
  pose proof (proj2 (child_a_always_kills_itself (a_child 0) zero_info
                       ltac:(simpl; lia) ltac:(simpl; lia))) as H0.
  pose proof (proj2 (child_a_always_kills_itself (a_child 1) zero_info
                       ltac:(simpl; lia) ltac:(simpl; lia))) as H1.
  split; [rewrite H0, H1; reflexivity | exact H1].
Defined.

(** ** A whole run *)

(** One trial of each variant, then the stop: two operations counted. *)
Example two_trials :
  exists i,
    stress_sighup 0 true
      [ {| stress_mwc1 := true;
           forks := [{| fork_ret := 77; fork_errno := 0;
                        stress_redo_fork := false;
                        stress_continue := true |}];
           waits := [wait_eintr;
                     wait_done (fun i =>
                       snd (fst (raise_signal_child (a_child 0) i)))];
           child := a_child 0; continue_after := true |};
        {| stress_mwc1 := false;
           forks := [{| fork_ret := 77; fork_errno := 0;
                        stress_redo_fork := false;
                        stress_continue := true |}];
           waits := [wait_done (fun i =>
                       snd (fst (process_group_child (a_child 1) i)))];
           child := a_child 1; continue_after := false |} ]
    = Some (Returns EXIT_SUCCESS, i,
            [E_sighandler SIGHUP; E_mmap;
             E_fork; E_waitpid 77; E_waitpid 77; Bogo_inc;
             E_sighandler SIGHUP; E_fork; E_waitpid 77; E_kill_pid_wait 78;
             Bogo_inc;
             E_metrics_set 1500000000%float; E_munmap])
    /\ count i = 1%float /\ latency i = 1.5%float.
Proof.
  eexists. split; [vm_compute; reflexivity | split; reflexivity].
Qed.

End SigHupFacts.

(** * Further facts about stress-schedpolicy.c *)

Module SchedPolicyMore.
Import CInt CIntFacts SchedPolicy SchedPolicyFacts.

(** ** The shape of a pass *)

Lemma count_if_app p evs evs' :
  count_if p (evs ++ evs') = (count_if p evs + count_if p evs')%nat.
Proof. unfold count_if. rewrite filter_app, length_app. reflexivity. Qed.

(** What follows the [switch] in a pass that is not skipped. *)
Lemma body_break plat args os st ret errno evs :
  switch_stmt plat os (policy st) (new_policy_of plat st)
    (target_pid args os) = Sw_break ret errno evs ->
  snd (body plat args os st) =
    evs ++ check_policy os (new_policy_of plat st) (target_pid args os)
             ret errno
        ++ get_set_param plat os (target_pid args os)
        ++ snd (sched_attr_block plat os (target_pid args os) st)
        ++ [E_yield; Inc_counter]
  /\ fst (body plat args os st) =
       next_policy plat
         (fst (sched_attr_block plat os (target_pid args os) st)).
Proof.
  intros H. unfold body. rewrite H.
  destruct (sched_attr_block plat os (target_pid args os) st).
  split; reflexivity.
Qed.

Lemma body_continue plat args os st evs :
  switch_stmt plat os (policy st) (new_policy_of plat st)
    (target_pid args os) = Sw_continue evs ->
  body plat args os st = (st, evs).
Proof. intros H. unfold body. rewrite H. reflexivity. Qed.

Ltac split_ifs :=
  repeat match goal with
         | |- context [if ?c then _ else _] => destruct c
         end.

(** Only the [switch] sets policies or asks for priority ranges, and only
    the end of the pass counts an operation. *)
Lemma get_set_param_quiet plat os pid_ p :
  p (E_getparam pid_) = false -> p (E_setparam pid_) = false ->
  (forall e, p (Pr_fail (Fail_getparam e)) = false) ->
  (forall e, p (Pr_fail (Fail_setparam e)) = false) ->
  count_if p (get_set_param plat os pid_) = 0%nat.
Proof.
  intros H1 H2 H3 H4. unfold get_set_param.
  destruct (_POSIX_PRIORITY_SCHEDULING plat); [| reflexivity].
  destruct (sched_getparam os pid_) as [r1 e1].
  destruct (sched_setparam os pid_) as [r2 e2].
  unfold count_if. split_ifs; simpl; rewrite ?H1, ?H2, ?H3, ?H4; simpl;
    rewrite ?H1, ?H2, ?H3, ?H4; reflexivity.
Qed.

Lemma sched_attr_block_quiet plat os pid_ st p :
  p (E_getattr pid_) = false -> (forall a b, p (E_setattr pid_ a b) = false) ->
  (forall e, p (Pr_fail (Fail_getattr e)) = false) ->
  (forall e, p (Pr_fail (Fail_setattr e)) = false) ->
  count_if p (snd (sched_attr_block plat os pid_ st)) = 0%nat.
Proof.
  intros H1 H2 H3 H4. unfold sched_attr_block.
  destruct (HAVE_SCHED_ATTR plat); [| reflexivity].
  destruct (shim_sched_getattr os pid_) as [[r1 e1] [amin amax]].
  destruct (track_util st amin amax) as [st1 amax'].
  destruct (shim_sched_setattr os pid_ amin amax') as [r2 e2].
  unfold count_if. simpl snd.
  split_ifs; simpl; rewrite ?H1, ?H2, ?H3, ?H4; simpl;
    rewrite ?H1, ?H2, ?H3, ?H4; reflexivity.
Qed.

Lemma check_policy_quiet os np pid_ ret errno p :
  p (E_getscheduler pid_) = false -> (forall m, p (Pr_fail m) = false) ->
  count_if p (check_policy os np pid_ ret errno) = 0%nat.
Proof.
  intros H1 H2. unfold check_policy.
  destruct (sched_getscheduler os pid_) as [r e].
  unfold count_if. split_ifs; simpl; rewrite ?H1, ?H2; simpl;
    rewrite ?H1, ?H2; reflexivity.
Qed.

(** The class [p] in what follows the [switch], for a class that counts
    none of the calls and reports made there. *)
Lemma after_switch_quiet plat args os st ret errno p :
  (forall x, p (E_getscheduler x) = false) ->
  (forall m, p (Pr_fail m) = false) ->
  (forall x, p (E_getparam x) = false) ->
  (forall x, p (E_setparam x) = false) ->
  (forall x, p (E_getattr x) = false) ->
  (forall x a b, p (E_setattr x a b) = false) ->
  p E_yield = false ->
  count_if p
    (check_policy os (new_policy_of plat st) (target_pid args os) ret errno
     ++ get_set_param plat os (target_pid args os)
     ++ snd (sched_attr_block plat os (target_pid args os) st)
     ++ [E_yield; Inc_counter])
  = if p Inc_counter then 1%nat else 0%nat.
Proof.
  intros H1 H2 H3 H4 H5 H6 H7. rewrite !count_if_app.
  rewrite check_policy_quiet, get_set_param_quiet, sched_attr_block_quiet
    by auto.
  unfold count_if. simpl. rewrite H7. destruct (p Inc_counter); reflexivity.
Qed.

(** The index stays the same through lines 172-224. *)
Lemma sched_attr_block_policy plat os pid_ st :
  policy (fst (sched_attr_block plat os pid_ st)) = policy st.
Proof.
  rewrite sched_attr_block_state.
  destruct (HAVE_SCHED_ATTR plat); [| reflexivity].
  unfold cycle_down, track_util. split_ifs; reflexivity.
Qed.

Lemma body_policy plat args os st :
  policy (fst (body plat args os st)) = policy st
  \/ policy (fst (body plat args os st)) =
       (policy st + 1) mod SIZEOF_ARRAY (policies plat).
Proof.
  destruct (switch_stmt plat os (policy st) (new_policy_of plat st)
              (target_pid args os)) as [evs | r e evs] eqn:E.
  - left. rewrite (body_continue _ _ _ _ _ E). reflexivity.
  - right. destruct (body_break _ _ _ _ _ _ _ E) as [_ ->].
    simpl. rewrite sched_attr_block_policy. reflexivity.
Qed.

Lemma table_size_positive plat :
  policies plat <> [] -> 0 < SIZEOF_ARRAY (policies plat).
Proof.
  unfold SIZEOF_ARRAY. destruct (policies plat); [congruence |].
  intros _. simpl length. lia.
Qed.

(** ** Non-realtime policies *)

(** X1: a trial of a policy filed under SCHED_IDLE, SCHED_BATCH or
    SCHED_OTHER starts with the one policy-set call of the pass, made with
    priority 0, and asks for no priority range. *)
Theorem nonrealtime_priority_is_zero (plat : platform) (args : args_t)
    (os : os_iter) (st : state) :
  is_nonrealtime plat (new_policy_of plat st) = true ->
  exists rest,
    snd (body plat args os st) =
      E_setscheduler (target_pid args os) (new_policy_of plat st) 0 :: rest
    /\ count_if is_set rest = 0%nat
    /\ count_if is_query rest = 0%nat.
Proof.
  intros Hn. unfold is_nonrealtime in Hn.
  destruct (sched_setscheduler os (target_pid args os)
              (new_policy_of plat st) 0) as [r e] eqn:Es.
  assert (Hsw : switch_stmt plat os (policy st) (new_policy_of plat st)
                  (target_pid args os)
                = Sw_break r (if r <? 0 then e else 0)
                    [E_setscheduler (target_pid args os)
                       (new_policy_of plat st) 0]).
  { unfold switch_stmt. rewrite Hn, Es. reflexivity. }
  destruct (body_break _ args _ _ _ _ _ Hsw) as [-> _].
  eexists. split; [reflexivity |].
  split; rewrite after_switch_quiet; reflexivity.
Qed.

Lemma nonrealtime_priority_is_zero_witness :
  exists rest,
    snd (body linux (worker 0) (calm 0 5 true) init_state) =
      E_setscheduler 0 5 0 :: rest
    /\ count_if is_set rest = 0%nat
    /\ count_if is_query rest = 0%nat.
Proof.
  exact (nonrealtime_priority_is_zero linux (worker 0) (calm 0 5 true)
           init_state eq_refl).
Defined.

(** ** The index into the table *)

Lemma iterate_index plat args oss :
  policies plat <> [] ->
  forall st,
    0 <= policy st < SIZEOF_ARRAY (policies plat) ->
    0 <= policy (iterate plat args oss st) < SIZEOF_ARRAY (policies plat).
Proof.
  intros Hp. pose proof (table_size_positive plat Hp) as Hpos.
  induction oss as [| os oss IH]; intros st Hst; [exact Hst |].
  simpl. apply IH.
  destruct (body_policy plat args os st) as [-> | ->]; [exact Hst |].
  apply Z.mod_pos_bound. exact Hpos.
Qed.

(** X2: with a table that is not empty the index is within the table
    after every pass of every run, so that [policies[policy]] is always an
    entry of the table. *)
Theorem index_stays_in_table (plat : platform) (args : args_t)
    (oss : list os_iter) :
  policies plat <> [] ->
  0 <= policy (iterate plat args oss init_state)
    < SIZEOF_ARRAY (policies plat)
  /\ In (new_policy_of plat (iterate plat args oss init_state))
        (policies plat).
Proof.
  intros Hp. pose proof (table_size_positive plat Hp) as Hpos.
  assert (H : 0 <= policy (iterate plat args oss init_state)
              < SIZEOF_ARRAY (policies plat)).
  { apply iterate_index; [exact Hp | simpl; lia]. }
  split; [exact H |].
  unfold new_policy_of. apply nth_In. unfold SIZEOF_ARRAY in H. lia.
Qed.

Lemma index_stays_in_table_witness :
  0 <= policy (iterate linux (worker 0) (repeat (calm 0 5 true) 7) init_state)
    < SIZEOF_ARRAY (policies linux)
  /\ In (new_policy_of linux
           (iterate linux (worker 0) (repeat (calm 0 5 true) 7) init_state))
        (policies linux).
Proof.
  apply (index_stays_in_table linux (worker 0) (repeat (calm 0 5 true) 7)).
  discriminate.
Defined.

Lemma iterate_round_robin plat args oss :
  policies plat <> [] ->
  Forall ranges_supported oss ->
  forall st,
    policy (iterate plat args oss st) =
      (policy st + Z.of_nat (length oss)) mod SIZEOF_ARRAY (policies plat)
    \/ oss = [].
Proof.
  intros Hp. pose proof (table_size_positive plat Hp) as Hpos.
  induction 1 as [| os oss Hs _ IH]; intros st; [right; reflexivity |].
  left. simpl iterate.
  assert (Hb : policy (fst (body plat args os st)) =
               (policy st + 1) mod SIZEOF_ARRAY (policies plat)).
  { destruct (switch_stmt_breaks plat os (policy st) (new_policy_of plat st)
                (target_pid args os) Hs) as [r [e [evs E]]].
    destruct (body_break _ args _ _ _ _ _ E) as [_ ->].
    simpl. rewrite sched_attr_block_policy. reflexivity. }
  destruct (IH (fst (body plat args os st))) as [-> | ->].
  - rewrite Hb, Z.add_mod_idemp_l by lia.
    f_equal. simpl length. lia.
  - simpl. rewrite Hb. f_equal.
Qed.

(** X3: as long as no trial is skipped the policies are taken round-robin:
    after n passes the index is n modulo the size of the table. *)
Theorem policies_round_robin (plat : platform) (args : args_t)
    (oss : list os_iter) :
  policies plat <> [] ->
  Forall ranges_supported oss ->
  policy (iterate plat args oss init_state) =
    Z.of_nat (length oss) mod SIZEOF_ARRAY (policies plat).
Proof.
  intros Hp Hs. pose proof (table_size_positive plat Hp) as Hpos.
  destruct (iterate_round_robin plat args oss Hp Hs init_state) as [-> | ->].
  - reflexivity.
  - simpl. rewrite Z.mod_small; lia.
Qed.

Lemma policies_round_robin_witness :
  policy (iterate linux (worker 0) (repeat (calm 0 5 true) 7) init_state) =
    Z.of_nat (length (repeat (calm 0 5 true) 7))
      mod SIZEOF_ARRAY (policies linux).
Proof.
  apply (policies_round_robin linux (worker 0) (repeat (calm 0 5 true) 7)).
  - discriminate.
  - apply Forall_forall. intros o Ho. apply repeat_spec in Ho. subst o.
    apply calm_ranges_supported.
Defined.

(** X4: a realtime trial whose queried range reads as unsupported does not
    move the index either, so while the kernel keeps answering -1 the run
    stays on that policy: the state never changes, no operation is counted
    and nothing is reported. *)
Theorem skipped_trial_is_repeated (plat : platform) (args : args_t)
    (oss : list os_iter) (st : state) :
  is_realtime plat (new_policy_of plat st) = true ->
  Forall (fun os => sched_get_priority_min os (policy st) = -1
                    \/ sched_get_priority_max os (policy st) = -1) oss ->
  iterate plat args oss st = st
  /\ count_if is_inc (trace plat args oss st) = 0%nat
  /\ count_if is_report (trace plat args oss st) = 0%nat
  /\ count_if is_set (trace plat args oss st) = 0%nat.
Proof.
  intros Hrt. induction 1 as [| os oss Hos _ IH]; [repeat split |].
  destruct (unsupported_range_is_skipped plat args os st Hrt Hos)
    as [Hst [Hrep Hinc]].
  assert (Hset : count_if is_set (snd (body plat args os st)) = 0%nat).
  { destruct (switch_stmt plat os (policy st) (new_policy_of plat st)
                (target_pid args os)) as [evs | r e evs] eqn:E.
    - rewrite (body_continue _ _ _ _ _ E). simpl.
      unfold switch_stmt, is_realtime in *.
      apply andb_true_iff in Hrt. destruct Hrt as [Hn Hr].
      apply negb_true_iff in Hn. rewrite Hn in E.
      assert (Hc : forall r0 e0 evs0,
                 realtime_case os (policy st) (new_policy_of plat st)
                   (target_pid args os) r0 e0 = Sw_continue evs0 ->
                 count_if is_set evs0 = 0%nat).
      { intros r0 e0 evs0 Hc. unfold realtime_case in Hc.
        destruct ((_ =? -1) || (_ =? -1)).
        - inversion Hc. reflexivity.
        - destruct (to_int32 _ =? 0); [discriminate |].
          destruct (sched_setscheduler os _ _ _). discriminate. }
      destruct (is_case (SCHED_RR plat) (new_policy_of plat st)).
      + destruct (HAVE_SCHED_RR_GET_INTERVAL plat).
        * destruct (sched_rr_get_interval os _) as [r0 e0].
          destruct (realtime_case os _ _ _ r0 _) as [evs0 | ? ? ?] eqn:Er;
            [| discriminate].
          inversion E. unfold count_if. simpl.
          exact (Hc _ _ _ Er).
        * exact (Hc _ _ _ E).
      + destruct (is_case (SCHED_FIFO plat) (new_policy_of plat st));
          [exact (Hc _ _ _ E) | discriminate].
    - destruct (body_break _ args _ _ _ _ _ E) as [Htr _].
      rewrite Htr, !count_if_app in Hinc.
      assert (H1 : count_if is_inc [E_yield; Inc_counter] = 1%nat)
        by reflexivity.
      lia. }
  simpl iterate. simpl trace. rewrite Hst, !count_if_app.
  destruct IH as [I1 [I2 [I3 I4]]]. rewrite I1, I2, I3, I4, Hinc, Hrep, Hset.
  repeat split.
Qed.

Lemma skipped_trial_is_repeated_witness :
  iterate freebsd (worker 0) (repeat (bsd_kernel 7) 5) init_state = init_state
  /\ count_if is_inc
       (trace freebsd (worker 0) (repeat (bsd_kernel 7) 5) init_state) = 0%nat
  /\ count_if is_report
       (trace freebsd (worker 0) (repeat (bsd_kernel 7) 5) init_state) = 0%nat
  /\ count_if is_set
       (trace freebsd (worker 0) (repeat (bsd_kernel 7) 5) init_state) = 0%nat.
Proof.
  apply (skipped_trial_is_repeated freebsd (worker 0)
           (repeat (bsd_kernel 7) 5) init_state eq_refl).
  apply Forall_forall. intros o Ho. apply repeat_spec in Ho. subst o.
  left. reflexivity.
Defined.

(** ** What the [switch] logs *)

Lemma realtime_case_quiet os idx np pid_ ret errno p :
  p (E_get_priority_min idx) = false ->
  p (E_get_priority_max idx) = false ->
  (forall a b, p (Pr_err np a b) = false) ->
  (forall a, p (E_setscheduler pid_ np a) = false) ->
  match realtime_case os idx np pid_ ret errno with
  | Sw_continue evs | Sw_break _ _ evs => count_if p evs = 0%nat
  end.
Proof.
  intros H1 H2 H3 H4. unfold realtime_case.
  destruct ((_ =? -1) || (_ =? -1)).
  { unfold count_if. simpl. rewrite H1, H2. reflexivity. }
  destruct (to_int32 _ =? 0).
  { unfold count_if. simpl. rewrite H1, H2, H3. reflexivity. }
  destruct (sched_setscheduler os pid_ np _) as [r e].
  unfold count_if. simpl. rewrite H1, H2, H4. reflexivity.
Qed.

(** The [switch] only asks for intervals and ranges, sets a policy, or
    logs an invalid range. *)
Lemma switch_stmt_quiet plat os idx np pid_ p :
  p (E_rr_get_interval pid_) = false ->
  p (E_get_priority_min idx) = false ->
  p (E_get_priority_max idx) = false ->
  (forall a b, p (Pr_err np a b) = false) ->
  (forall a, p (E_setscheduler pid_ np a) = false) ->
  match switch_stmt plat os idx np pid_ with
  | Sw_continue evs | Sw_break _ _ evs => count_if p evs = 0%nat
  end.
Proof.
  intros H0 H1 H2 H3 H4. unfold switch_stmt.
  destruct (_ || _ || _).
  { destruct (sched_setscheduler os pid_ np 0) as [r e].
    unfold count_if. simpl. rewrite H4. reflexivity. }
  destruct (is_case (SCHED_RR plat) np).
  { destruct (HAVE_SCHED_RR_GET_INTERVAL plat);
      [| apply realtime_case_quiet; assumption].
    destruct (sched_rr_get_interval os pid_) as [r e].
    pose proof (realtime_case_quiet os idx np pid_ r
                  (if r <? 0 then e else 0) p H1 H2 H3 H4) as Hq.
    destruct (realtime_case os idx np pid_ r _);
      unfold count_if in *; simpl; rewrite H0; exact Hq. }
  destruct (is_case (SCHED_FIFO plat) np);
    [apply realtime_case_quiet; assumption | reflexivity].
Qed.

(** The realtime labels lead to lines 111-131, SCHED_RR through its call
    of [sched_rr_get_interval] where there is one. *)
Lemma switch_stmt_realtime plat os idx np pid_ :
  is_realtime plat np = true ->
  switch_stmt plat os idx np pid_ =
    if is_case (SCHED_RR plat) np && HAVE_SCHED_RR_GET_INTERVAL plat then
      match realtime_case os idx np pid_
              (fst (sched_rr_get_interval os pid_))
              (if fst (sched_rr_get_interval os pid_) <? 0
               then snd (sched_rr_get_interval os pid_) else 0) with
      | Sw_continue evs => Sw_continue (E_rr_get_interval pid_ :: evs)
      | Sw_break r e evs => Sw_break r e (E_rr_get_interval pid_ :: evs)
      end
    else realtime_case os idx np pid_ 0 0.
Proof.
  unfold is_realtime, switch_stmt. intros H.
  apply andb_true_iff in H. destruct H as [Hn Hr].
  apply negb_true_iff in Hn. rewrite Hn.
  destruct (is_case (SCHED_RR plat) np); simpl.
  - destruct (HAVE_SCHED_RR_GET_INTERVAL plat); [| reflexivity].
    destruct (sched_rr_get_interval os pid_) as [r e]. reflexivity.
  - simpl in Hr. rewrite Hr. reflexivity.
Qed.

Lemma realtime_case_zero_width os idx np pid_ ret errno :
  sched_get_priority_min os idx = sched_get_priority_max os idx ->
  sched_get_priority_min os idx <> -1 ->
  realtime_case os idx np pid_ ret errno =
    Sw_break ret errno
      [E_get_priority_min idx; E_get_priority_max idx;
       Pr_err np (sched_get_priority_min os idx)
         (sched_get_priority_max os idx)].
Proof.
  intros He Hn. unfold realtime_case. rewrite <- He.
  replace (sched_get_priority_min os idx =? -1) with false
    by (symmetry; apply Z.eqb_neq; exact Hn).
  simpl. rewrite Z.sub_diag. reflexivity.
Qed.

(** ** A policy-set that fails *)

(** X5: when the [switch] is left with a negative [ret] the policy is not
    read back, and the pass reports a failed [sched_setscheduler] exactly
    when errno is neither EPERM nor EINVAL. *)
Theorem failed_policy_set_report (plat : platform) (args : args_t)
    (os : os_iter) (st : state) (ret errno : Z) (evs : list event) :
  switch_stmt plat os (policy st) (new_policy_of plat st)
    (target_pid args os) = Sw_break ret errno evs ->
  ret < 0 ->
  count_if is_getscheduler (snd (body plat args os st)) = 0%nat
  /\ count_if is_set_failure (snd (body plat args os st)) =
       (if (errno =? EPERM) || (errno =? EINVAL) then 0%nat else 1%nat)
  /\ count_if is_inc (snd (body plat args os st)) = 1%nat.
Proof.
  intros Hsw Hret.
  destruct (body_break _ args _ _ _ _ _ Hsw) as [-> _].
  pose proof (switch_stmt_quiet plat os (policy st) (new_policy_of plat st)
                (target_pid args os)) as Hq.
  rewrite Hsw in Hq.
  assert (Hc : check_policy os (new_policy_of plat st) (target_pid args os)
                 ret errno =
               if negb (errno =? EPERM) && negb (errno =? EINVAL)
               then [Pr_fail (Fail_setscheduler errno
                                (new_policy_of plat st))]
               else []).
  { unfold check_policy.
    destruct (Z.ltb_spec ret 0); [reflexivity | lia]. }
  rewrite !count_if_app, Hc.
  rewrite !get_set_param_quiet, !sched_attr_block_quiet, !Hq
    by reflexivity.
  destruct (errno =? EPERM); destruct (errno =? EINVAL); repeat split.
Qed.

Lemma failed_policy_set_report_witness :
  count_if is_getscheduler
    (snd (body linux (worker 0) (kernel 1 99 (0, 0) (-1, 3)) init_state))
  = 0%nat
  /\ count_if is_set_failure
       (snd (body linux (worker 0) (kernel 1 99 (0, 0) (-1, 3)) init_state))
     = 1%nat
  /\ count_if is_inc
       (snd (body linux (worker 0) (kernel 1 99 (0, 0) (-1, 3)) init_state))
     = 1%nat.
Proof.
  exact (failed_policy_set_report linux (worker 0)
           (kernel 1 99 (0, 0) (-1, 3)) init_state (-1) 3
           [E_setscheduler 0 5 0] eq_refl eq_refl).
Defined.

(** ** A range of one priority *)

(** X6: a realtime trial whose queried range has min = max (not -1) logs
    the invalid range and sets no policy; the pass is not abandoned: it
    still counts one operation and moves to the next policy. *)
Theorem zero_width_range_sets_nothing (plat : platform) (args : args_t)
    (os : os_iter) (st : state) :
  is_realtime plat (new_policy_of plat st) = true ->
  sched_get_priority_min os (policy st)
    = sched_get_priority_max os (policy st) ->
  sched_get_priority_min os (policy st) <> -1 ->
  In (Pr_err (new_policy_of plat st)
        (sched_get_priority_min os (policy st))
        (sched_get_priority_max os (policy st)))
     (snd (body plat args os st))
  /\ count_if is_set (snd (body plat args os st)) = 0%nat
  /\ count_if is_inc (snd (body plat args os st)) = 1%nat
  /\ policy (fst (body plat args os st)) =
       (policy st + 1) mod SIZEOF_ARRAY (policies plat).
Proof.
  intros Hrt He Hn.
  pose proof (switch_stmt_realtime plat os (policy st)
                (new_policy_of plat st) (target_pid args os) Hrt) as Hsw.
  rewrite !(realtime_case_zero_width os _ _ _ _ _ He Hn) in Hsw.
  set (err := Pr_err (new_policy_of plat st)
                (sched_get_priority_min os (policy st))
                (sched_get_priority_max os (policy st))) in *.
  assert (Hex : exists r e evs,
             switch_stmt plat os (policy st) (new_policy_of plat st)
               (target_pid args os) = Sw_break r e evs
             /\ In err evs /\ count_if is_set evs = 0%nat
             /\ count_if is_inc evs = 0%nat).
  { destruct (_ && _); rewrite Hsw; do 3 eexists;
      (split; [reflexivity |]); (split; [simpl; auto 6 |]);
      split; reflexivity. }
  destruct Hex as [r [e [evs [Hb [Hin [Hset Hinc]]]]]].
  destruct (body_break _ args _ _ _ _ _ Hb) as [-> ->].
  split; [apply in_or_app; left; exact Hin |].
  rewrite !(count_if_app _ evs), Hset, Hinc.
  rewrite !after_switch_quiet by reflexivity.
  split; [reflexivity |]. split; [reflexivity |].
  simpl. rewrite sched_attr_block_policy. reflexivity.
Qed.

Lemma zero_width_range_sets_nothing_witness :
  In (Pr_err 1 10 10)
     (snd (body freebsd (worker 0) (kernel 10 10 (0, 0) (0, 0)) init_state))
  /\ count_if is_set
       (snd (body freebsd (worker 0) (kernel 10 10 (0, 0) (0, 0))
               init_state)) = 0%nat
  /\ count_if is_inc
       (snd (body freebsd (worker 0) (kernel 10 10 (0, 0) (0, 0))
               init_state)) = 1%nat
  /\ policy (fst (body freebsd (worker 0) (kernel 10 10 (0, 0) (0, 0))
                    init_state)) =
       (policy init_state + 1) mod SIZEOF_ARRAY (policies freebsd).
Proof.
  apply (zero_width_range_sets_nothing freebsd (worker 0)
           (kernel 10 10 (0, 0) (0, 0)) init_state);
    [reflexivity | reflexivity | discriminate].
Defined.

(** X7: [ret] still holds the answer of [sched_rr_get_interval] when the
    SCHED_RR trial leaves the [switch] over a range of one priority; if
    that call had failed with an errno other than EPERM and EINVAL, the
    pass reports a failed [sched_setscheduler] although it made no such
    call, and does not read the policy back. *)
Theorem rr_interval_failure_reported_as_set_failure (plat : platform)
    (args : args_t) (os : os_iter) (st : state) (r e : Z) :
  is_realtime plat (new_policy_of plat st) = true ->
  is_case (SCHED_RR plat) (new_policy_of plat st) = true ->
  HAVE_SCHED_RR_GET_INTERVAL plat = true ->
  sched_rr_get_interval os (target_pid args os) = (r, e) ->
  r < 0 -> e <> EPERM -> e <> EINVAL ->
  sched_get_priority_min os (policy st)
    = sched_get_priority_max os (policy st) ->
  sched_get_priority_min os (policy st) <> -1 ->
  count_if is_set (snd (body plat args os st)) = 0%nat
  /\ In (Pr_fail (Fail_setscheduler e (new_policy_of plat st)))
        (snd (body plat args os st))
  /\ count_if is_getscheduler (snd (body plat args os st)) = 0%nat.
Proof.
  intros Hrt Hrr Hh Hi Hr He1 He2 He Hn.
  pose proof (switch_stmt_realtime plat os (policy st)
                (new_policy_of plat st) (target_pid args os) Hrt) as Hsw.
  rewrite Hrr, Hh, Hi in Hsw. simpl in Hsw.
  rewrite (realtime_case_zero_width os _ _ _ _ _ He Hn) in Hsw.
  destruct (Z.ltb_spec r 0); [| lia].
  destruct (body_break _ args _ _ _ _ _ Hsw) as [-> _].
  assert (Hc : check_policy os (new_policy_of plat st) (target_pid args os)
                 r e =
               [Pr_fail (Fail_setscheduler e (new_policy_of plat st))]).
  { unfold check_policy.
    destruct (Z.ltb_spec r 0); [| lia].
    destruct (Z.eqb_spec e EPERM); [contradiction |].
    destruct (Z.eqb_spec e EINVAL); [contradiction | reflexivity]. }
  rewrite Hc. split; [| split].
  - rewrite !count_if_app.
    rewrite get_set_param_quiet, sched_attr_block_quiet by reflexivity.
    reflexivity.
  - apply in_or_app. right. left. reflexivity.
  - rewrite !count_if_app.
    rewrite get_set_param_quiet, sched_attr_block_quiet by reflexivity.
    reflexivity.
Qed.

Lemma rr_interval_failure_reported_as_set_failure_witness :
  count_if is_set
    (snd (body freebsd (worker 0) (kernel 10 10 (-1, 3) (0, 0))
            (next_policy freebsd init_state))) = 0%nat
  /\ In (Pr_fail (Fail_setscheduler 3 3))
        (snd (body freebsd (worker 0) (kernel 10 10 (-1, 3) (0, 0))
                (next_policy freebsd init_state)))
  /\ count_if is_getscheduler
       (snd (body freebsd (worker 0) (kernel 10 10 (-1, 3) (0, 0))
               (next_policy freebsd init_state))) = 0%nat.
Proof.
  apply (rr_interval_failure_reported_as_set_failure freebsd (worker 0)
           (kernel 10 10 (-1, 3) (0, 0)) (next_policy freebsd init_state)
           (-1) 3);
    solve [reflexivity | discriminate].
Defined.

(** ** Counting operations *)

Lemma body_counts_one plat args os st :
  count_if is_inc (snd (body plat args os st)) =
    match switch_stmt plat os (policy st) (new_policy_of plat st)
            (target_pid args os) with
    | Sw_continue _ => 0%nat
    | Sw_break _ _ _ => 1%nat
    end.
Proof.
  pose proof (switch_stmt_quiet plat os (policy st) (new_policy_of plat st)
                (target_pid args os) is_inc) as Hq.
  destruct (switch_stmt plat os (policy st) (new_policy_of plat st)
              (target_pid args os)) as [evs | r e evs] eqn:E.
  - rewrite (body_continue _ _ _ _ _ E). apply Hq; reflexivity.
  - destruct (body_break _ args _ _ _ _ _ E) as [-> _].
    rewrite count_if_app, Hq, after_switch_quiet by reflexivity.
    reflexivity.
Qed.

(** X8: a pass counts one operation unless its trial is skipped: over any
    sequence of passes the operations counted are at most the passes made,
    and exactly as many when no priority range reads as unsupported. *)
Theorem operations_counted (plat : platform) (args : args_t)
    (oss : list os_iter) (st : state) :
  (count_if is_inc (trace plat args oss st) <= length oss)%nat
  /\ (Forall ranges_supported oss ->
      count_if is_inc (trace plat args oss st) = length oss).
Proof.
  revert st. induction oss as [| os oss IH]; intros st.
  { split; [apply Nat.le_refl | reflexivity]. }
  simpl trace. simpl length. rewrite count_if_app, body_counts_one.
  destruct (IH (fst (body plat args os st))) as [Hle Heq]. split.
  - destruct (switch_stmt plat os _ _ _); lia.
  - intros Hs. apply Forall_cons_iff in Hs. destruct Hs as [Hs Hs'].
    rewrite (Heq Hs').
    destruct (switch_stmt_breaks plat os (policy st) (new_policy_of plat st)
                (target_pid args os) Hs) as [r [e [evs ->]]].
    reflexivity.
Qed.

Lemma operations_counted_witness :
  count_if is_inc
    (trace linux (worker 0) (repeat (calm 0 5 true) 7) init_state)
  = length (repeat (calm 0 5 true) 7).
Proof.
  apply (operations_counted linux (worker 0) (repeat (calm 0 5 true) 7)
           init_state).
  apply Forall_forall. intros o Ho. apply repeat_spec in Ho. subst o.
  apply calm_ranges_supported.
Defined.

(** ** The clamps seen *)

Lemma track_util_monotone st amin amax :
  sched_util_min (fst (track_util st amin amax)) <= sched_util_min st
  /\ sched_util_max st <= sched_util_max (fst (track_util st amin amax)).
Proof.
  unfold track_util. destruct (negb (amax =? 0)); simpl; [| lia].
  track_cases st amin amax.
Qed.

Lemma cycle_down_keeps_seen st :
  sched_util_min (cycle_down st) = sched_util_min st
  /\ sched_util_max (cycle_down st) = sched_util_max st.
Proof. unfold cycle_down. split_ifs; split; reflexivity. Qed.

(** X9: over any run the smallest clamp seen never grows and the largest
    clamp seen never shrinks. *)
Theorem clamps_seen_monotone (plat : platform) (args : args_t)
    (oss : list os_iter) (st : state) :
  sched_util_min (iterate plat args oss st) <= sched_util_min st
  /\ sched_util_max st <= sched_util_max (iterate plat args oss st).
Proof.
  revert st. induction oss as [| os oss IH]; intros st; [simpl; lia |].
  simpl iterate. destruct (IH (fst (body plat args os st))) as [H1 H2].
  assert (Hb : sched_util_min (fst (body plat args os st))
               <= sched_util_min st
               /\ sched_util_max st
                  <= sched_util_max (fst (body plat args os st))).
  { destruct (body_state plat args os st) as [-> | ->]; [lia |].
    destruct (HAVE_SCHED_ATTR plat); simpl; [| lia].
    destruct (cycle_down_keeps_seen
                (fst (track_util st (fst (attr_read args os))
                                    (snd (attr_read args os))))) as [-> ->].
    apply track_util_monotone. }
  lia.
Qed.

Lemma track_util_unset st amin amax :
  sched_util_max_value st = 0 ->
  amax <> 0 ->
  let st1 := fst (track_util st amin amax) in
  sched_util_max_value st1 = sched_util_max st1
  /\ amax <= sched_util_max st1
  /\ counter st1 = counter st.
Proof.
  intros Hv Ha. unfold track_util.
  replace (amax =? 0) with false by (symmetry; apply Z.eqb_neq; exact Ha).
  simpl. rewrite Hv. simpl. repeat split.
  destruct (Z.ltb_spec (sched_util_max st) amax); lia.
Qed.

(** X10: the value cycled down is not kept at zero: when it is 1, the
    smallest clamp seen is 0 and the counter is past 256, the next pass
    takes it to 0, and the pass after that, reading a positive
    [sched_util_max], starts it over at the largest clamp seen. *)
Theorem clamp_value_starts_over (plat : platform) (args : args_t)
    (os1 os2 : os_iter) (st : state) :
  HAVE_SCHED_ATTR plat = true ->
  ranges_supported os1 ->
  ranges_supported os2 ->
  sched_util_max_value st = 1 ->
  sched_util_min st <= 0 ->
  256 < counter st ->
  0 < snd (attr_read args os2) ->
  sched_util_max_value (iterate plat args [os1] st) = 0
  /\ sched_util_max_value (iterate plat args [os1; os2] st)
     = sched_util_max (iterate plat args [os1; os2] st)
  /\ snd (attr_read args os2)
     <= sched_util_max_value (iterate plat args [os1; os2] st).
Proof.
  intros Hh Hs1 Hs2 Hv Hm Hc Ha. simpl iterate.
  rewrite (body_state_supported plat args os1 st Hh Hs1).
  destruct (track_util_set st (fst (attr_read args os1))
              (snd (attr_read args os1))) as [E1 [E2 E3]]; [lia |].
  set (s1 := fst (track_util st _ _)) in *.
  rewrite (cycle_down_fires s1) by lia.
  match goal with |- context [next_policy plat ?s] => set (s2 := s) end.
  split; [simpl; lia |].
  rewrite (body_state_supported plat args os2 _ Hh Hs2).
  destruct (track_util_unset (next_policy plat s2) (fst (attr_read args os2))
              (snd (attr_read args os2))) as [F1 [F2 F3]];
    [simpl; lia | lia |].
  set (s3 := fst (track_util (next_policy plat s2) _ _)) in *.
  rewrite (cycle_down_counts s3) by (rewrite F3; simpl; lia).
  simpl. lia.
Qed.

Lemma clamp_value_starts_over_witness :
  sched_util_max_value
    (iterate linux (worker 0) [calm 0 5 true] nearly_down) = 0
  /\ sched_util_max_value
       (iterate linux (worker 0) [calm 0 5 true; calm 0 5 true] nearly_down)
     = sched_util_max
         (iterate linux (worker 0) [calm 0 5 true; calm 0 5 true] nearly_down)
  /\ snd (attr_read (worker 0) (calm 0 5 true))
     <= sched_util_max_value
          (iterate linux (worker 0) [calm 0 5 true; calm 0 5 true]
             nearly_down).
Proof.
  apply (clamp_value_starts_over linux (worker 0) (calm 0 5 true)
           (calm 0 5 true) nearly_down);
    solve [reflexivity | apply calm_ranges_supported | simpl; lia].
Defined.

(** ** A pass without trouble *)

Lemma realtime_case_calm os idx np pid_ ret errno :
  (forall a b c, 0 <= fst (sched_setscheduler os a b c)) ->
  sched_get_priority_max os idx - sched_get_priority_min os idx <> 0 ->
  - 2 ^ 31 <= sched_get_priority_max os idx - sched_get_priority_min os idx
    < 2 ^ 31 ->
  match realtime_case os idx np pid_ ret errno with
  | Sw_continue evs => count_if is_report evs = 0%nat
  | Sw_break r _ evs => 0 <= r /\ count_if is_report evs = 0%nat
  end.
Proof.
  intros Hset Hd Hr. unfold realtime_case.
  destruct ((_ =? -1) || (_ =? -1)); [reflexivity |].
  rewrite to_int32_small by exact Hr.
  destruct (Z.eqb_spec (sched_get_priority_max os idx
                        - sched_get_priority_min os idx) 0);
    [contradiction |].
  match goal with |- context [sched_setscheduler os ?a ?b ?c] =>
    pose proof (Hset a b c) as Hs;
    destruct (sched_setscheduler os a b c) as [r e]
  end.
  split; [exact Hs | reflexivity].
Qed.

Lemma switch_stmt_calm plat os idx np pid_ :
  (forall a b c, 0 <= fst (sched_setscheduler os a b c)) ->
  sched_get_priority_max os idx - sched_get_priority_min os idx <> 0 ->
  - 2 ^ 31 <= sched_get_priority_max os idx - sched_get_priority_min os idx
    < 2 ^ 31 ->
  match switch_stmt plat os idx np pid_ with
  | Sw_continue evs => count_if is_report evs = 0%nat
  | Sw_break r _ evs => 0 <= r /\ count_if is_report evs = 0%nat
  end.
Proof.
  intros Hset Hd Hr. unfold switch_stmt.
  destruct (_ || _ || _).
  { pose proof (Hset pid_ np 0) as Hs.
    destruct (sched_setscheduler os pid_ np 0) as [r e].
    split; [exact Hs | reflexivity]. }
  destruct (is_case (SCHED_RR plat) np).
  { destruct (HAVE_SCHED_RR_GET_INTERVAL plat);
      [| apply realtime_case_calm; assumption].
    destruct (sched_rr_get_interval os pid_) as [r e].
    pose proof (realtime_case_calm os idx np pid_ r
                  (if r <? 0 then e else 0) Hset Hd Hr) as Hq.
    destruct (realtime_case os idx np pid_ r _); exact Hq. }
  destruct (is_case (SCHED_FIFO plat) np);
    [apply realtime_case_calm; assumption |].
  split; [lia | reflexivity].
Qed.

(** X18: a pass in which every call succeeds, the priority range asked for
    is not of one priority, and the policy read back is the one of the
    trial, reports nothing, neither a failure nor an error. *)
Theorem calm_pass_reports_nothing (plat : platform) (args : args_t)
    (os : os_iter) (st : state) :
  (forall a b c, 0 <= fst (sched_setscheduler os a b c)) ->
  sched_get_priority_max os (policy st)
    - sched_get_priority_min os (policy st) <> 0 ->
  - 2 ^ 31 <= sched_get_priority_max os (policy st)
              - sched_get_priority_min os (policy st) < 2 ^ 31 ->
  fst (sched_getscheduler os (target_pid args os)) = new_policy_of plat st ->
  0 <= new_policy_of plat st ->
  0 <= fst (sched_getparam os (target_pid args os)) ->
  0 <= fst (sched_setparam os (target_pid args os)) ->
  0 <= fst (fst (shim_sched_getattr os (target_pid args os))) ->
  (forall a b, 0 <= fst (shim_sched_setattr os (target_pid args os) a b)) ->
  count_if is_report (snd (body plat args os st)) = 0%nat.
Proof.
  intros Hset Hd Hr Hget Hnp Hgp Hsp Hga Hsa.
  pose proof (switch_stmt_calm plat os (policy st) (new_policy_of plat st)
                (target_pid args os) Hset Hd Hr) as Hsw.
  destruct (switch_stmt plat os (policy st) (new_policy_of plat st)
              (target_pid args os)) as [evs | r e evs] eqn:E.
  { rewrite (body_continue _ _ _ _ _ E). exact Hsw. }
  destruct Hsw as [Hret Hevs].
  destruct (body_break _ args _ _ _ _ _ E) as [-> _].
  rewrite !count_if_app, Hevs.
  assert (H1 : count_if is_report
                 (check_policy os (new_policy_of plat st)
                    (target_pid args os) r e) = 0%nat).
  { unfold check_policy.
    destruct (sched_getscheduler os (target_pid args os)) as [r' e'].
    simpl in Hget. subst r'.
    destruct (Z.ltb_spec r 0); [lia |].
    destruct (Z.ltb_spec (new_policy_of plat st) 0); [lia |].
    rewrite Z.eqb_refl. reflexivity. }
  assert (H2 : count_if is_report
                 (get_set_param plat os (target_pid args os)) = 0%nat).
  { unfold get_set_param.
    destruct (_POSIX_PRIORITY_SCHEDULING plat); [| reflexivity].
    destruct (sched_getparam os _) as [r1 e1].
    destruct (sched_setparam os _) as [r2 e2]. simpl in Hgp, Hsp.
    destruct (Z.ltb_spec r1 0); [lia |].
    destruct (Z.ltb_spec r2 0); [lia | reflexivity]. }
  assert (H3 : count_if is_report
                 (snd (sched_attr_block plat os (target_pid args os) st))
               = 0%nat).
  { unfold sched_attr_block.
    destruct (HAVE_SCHED_ATTR plat); [| reflexivity].
    destruct (shim_sched_getattr os _) as [[r1 e1] [amin amax]].
    destruct (track_util st amin amax) as [st1 amax'].
    pose proof (Hsa amin amax') as Hs.
    destruct (shim_sched_setattr os _ amin amax') as [r2 e2].
    simpl in Hga, Hs.
    destruct (Z.ltb_spec r1 0); [lia |].
    destruct (Z.ltb_spec r2 0); [lia | reflexivity]. }
  rewrite H1, H2, H3. reflexivity.
Qed.

Lemma calm_pass_reports_nothing_witness :
  count_if is_report
    (snd (body linux (worker 0) (calm 0 1 true)
            (next_policy linux init_state))) = 0%nat.
Proof.
  apply (calm_pass_reports_nothing linux (worker 0) (calm 0 1 true)
           (next_policy linux init_state));
    solve [reflexivity | simpl; intros; lia | simpl; lia | discriminate].
Defined.

End SchedPolicyMore.

(** * Further facts about stress-sighup.c *)

Module SigHupMore.
Import SigHup SigHupFacts.

(** ** Forks that fail *)






(** ** A trial of variant A that goes well *)

(** X12: in variant A, when the child's run (start time [t0] written, the
    handler run at [now]) is what reaches the block during the wait that
    completes, with [t0] and [now - t0] above 0.0, the trial returns 0
    without a report, and the block holds the flag, one sample more and
    the latency [now - t0] added. *)
Theorem raise_signal_takes_one_sample (t : trial_os) (f : fork_try)
    (fs : list fork_try) (intr ws : list wait_try) (w : wait_try)
    (i : stress_sighup_info_t) (t0 now : float) :
  forks t = f :: fs ->
  0 < fork_ret f ->
  waits t = intr ++ w :: ws ->
  Forall (fun w => interrupted w = true) intr ->
  0 <= wait_ret w ->
  wait_shared w (shared_after intr i) =
    handle now (set_t_start t0 (shared_after intr i)) ->
  (0 <? t0)%float = true ->
  (0 <? now - t0)%float = true ->
  exists i',
    stress_sighup_raise_signal t i =
      Some (Returns 0, i',
            E_fork :: repeat (E_waitpid (fork_ret f)) (length intr)
              ++ [E_waitpid (fork_ret f)])
    /\ signalled i' = true
    /\ count i' = (count (shared_after intr i) + 1)%float
    /\ latency i' = (latency (shared_after intr i) + (now - t0))%float.
Proof.
  intros Hfs Hf Hws Hintr Hw Hsh H0 H1.
  exists (handle now (set_t_start t0 (shared_after intr i))).
  unfold stress_sighup_raise_signal. rewrite Hfs. simpl raise_signal_again.
  destruct (Z.ltb_spec (fork_ret f) 0); [lia |].
  destruct (Z.eqb_spec (fork_ret f) 0); [lia |].
  rewrite Hws, (raise_signal_rewait_retries _ intr Hintr).
  simpl raise_signal_rewait. rewrite Hsh.
  destruct (Z.ltb_spec (wait_ret w) 0); [lia |].
  rewrite handle_cases. simpl t_start. rewrite H0, H1. simpl.
  repeat split.
Qed.

Lemma raise_signal_takes_one_sample_witness :
  exists i',
    stress_sighup_raise_signal
      (a_trial true [fork_ok]
         ([wait_eintr] ++
          wait_done (fun i => handle 3.5%float (set_t_start 2%float i))
          :: []) (a_child 0)) zero_info =
      Some (Returns 0, i',
            E_fork :: repeat (E_waitpid 77) 1 ++ [E_waitpid 77])
    /\ signalled i' = true
    /\ count i' = (0 + 1)%float
    /\ latency i' = (0 + (3.5 - 2))%float.
Proof.
  exact (raise_signal_takes_one_sample
           (a_trial true [fork_ok]
              ([wait_eintr] ++
               wait_done (fun i => handle 3.5%float (set_t_start 2%float i))
               :: []) (a_child 0))
           fork_ok [] [wait_eintr] []
           (wait_done (fun i => handle 3.5%float (set_t_start 2%float i)))
           zero_info 2%float 3.5%float
           eq_refl eq_refl eq_refl
           (Forall_cons wait_eintr (eq_refl : interrupted wait_eintr = true)
              (Forall_nil _))
           ltac:(simpl; lia) eq_refl eq_refl eq_refl).
Defined.

(** ** The flag is per trial *)

(** X13: [signalled] is cleared before every trial, so a flag left set by
    an earlier trial does not let a trial pass: if nothing sets the flag
    while the parent of variant A waits, the trial fails whatever the flag
    was before, no operation is counted, the loop is left and the worker
    returns EXIT_FAILURE after unmapping the block. *)
Theorem stale_flag_does_not_pass (t : trial_os) (ts : list trial_os)
    (f : fork_try) (fs : list fork_try) (w : wait_try) (ws : list wait_try)
    (i : stress_sighup_info_t) :
  stress_mwc1 t = true ->
  forks t = f :: fs ->
  0 < fork_ret f ->
  waits t = w :: ws ->
  0 <= wait_ret w ->
  (forall x, signalled (wait_shared w x) = signalled x) ->
  exists v,
    trials (t :: ts) i =
      Some (Returns EXIT_FAILURE, wait_shared w (set_signalled false i),
            [E_fork; E_waitpid (fork_ret f); Pr_fail Fail_not_signalled;
             E_metrics_set v; E_munmap]).
Proof.
  intros Hv Hfs Hf Hws Hw Hkeep.
  simpl trials. rewrite Hv. unfold stress_sighup_raise_signal.
  rewrite Hfs. simpl raise_signal_again.
  destruct (Z.ltb_spec (fork_ret f) 0); [lia |].
  destruct (Z.eqb_spec (fork_ret f) 0); [lia |].
  rewrite Hws. simpl raise_signal_rewait.
  destruct (Z.ltb_spec (wait_ret w) 0); [lia |].
  rewrite Hkeep. simpl. eexists. reflexivity.
Qed.

Lemma stale_flag_does_not_pass_witness :
  exists v,
    trials (a_trial true [fork_ok] [wait_done (fun i => i)] (a_child 0) :: [])
      (set_signalled true zero_info) =
      Some (Returns EXIT_FAILURE, set_signalled false zero_info,
            [E_fork; E_waitpid 77; Pr_fail Fail_not_signalled;
             E_metrics_set v; E_munmap]).
Proof.
  exact (stale_flag_does_not_pass
           (a_trial true [fork_ok] [wait_done (fun i => i)] (a_child 0)) []
           fork_ok [] (wait_done (fun i => i)) []
           (set_signalled true zero_info)
           eq_refl eq_refl eq_refl eq_refl ltac:(simpl; lia)
           (fun x => eq_refl)).
Defined.

(** ** What a trial logs and returns *)

Lemma prepend_some evs r o i tr :
  prepend evs r = Some (o, i, tr) ->
  exists tr', r = Some (o, i, tr') /\ tr = evs ++ tr'.
Proof.
  destruct r as [[[o' i'] tr'] |]; simpl; [| discriminate].
  intros H. inversion H; subst. eauto.
Qed.

Lemma forallb_count_if q p evs :
  forallb q evs = true ->
  (forall e, q e = true -> p e = false) ->
  count_if p evs = 0%nat.
Proof.
  intros Hq Hp. unfold count_if. induction evs as [| e evs IH]; [reflexivity |].
  simpl in Hq |- *. apply andb_true_iff in Hq. destruct Hq as [He Hq].
  rewrite (Hp e He). apply IH, Hq.
Qed.

Lemma of_process_group_of_trial e :
  of_process_group e = true -> of_trial e = true.
Proof. unfold of_process_group. intros H. apply andb_true_iff in H. tauto. Qed.

Lemma forallb_of_process_group evs :
  forallb of_process_group evs = true -> forallb of_trial evs = true.
Proof.
  rewrite !forallb_forall. intros H e He.
  apply of_process_group_of_trial, H, He.
Qed.

Lemma well_behaved_prepend q rcs evs r :
  forallb q evs = true ->
  well_behaved q rcs r -> well_behaved q rcs (prepend evs r).
Proof.
  destruct r as [[[o i] tr] |]; simpl; [| trivial].
  intros He [Ht Hr]. rewrite forallb_app, He, Ht. split; [reflexivity | exact Hr].
Qed.

Lemma raise_signal_rewait_behaves pid_ ws :
  forall i, well_behaved of_trial [0; EXIT_FAILURE; -1]
              (raise_signal_rewait pid_ ws i).
Proof.
  induction ws as [| w ws IH]; intros i; simpl; [trivial |].
  destruct (wait_ret w <? 0).
  - destruct (wait_errno w =? EINTR).
    + apply well_behaved_prepend; [reflexivity | apply IH].
    + split; [reflexivity |]. intros rc H. inversion H. simpl. auto.
  - destruct (Bool.eqb _ false); (split; [reflexivity |]);
      intros rc H; inversion H; simpl; auto.
Qed.

Lemma raise_signal_again_behaves fs t :
  forall i, well_behaved of_trial [0; EXIT_FAILURE; -1]
              (raise_signal_again fs t i).
Proof.
  induction fs as [| f fs IH]; intros i; simpl; [trivial |].
  destruct (fork_ret f <? 0).
  - destruct (stress_redo_fork f).
    + apply well_behaved_prepend; [reflexivity | apply IH].
    + destruct (stress_continue f); simpl; (split; [reflexivity |]);
        intros rc H; inversion H; simpl; auto.
  - destruct (fork_ret f =? 0).
    + unfold raise_signal_child.
      destruct (raise_hup (child t)); simpl; (split; [reflexivity |]);
        intros rc H; discriminate.
    + apply well_behaved_prepend; [reflexivity |].
      apply raise_signal_rewait_behaves.
Qed.

Lemma kill_recorded_of_process_group i :
  forallb of_process_group (kill_recorded i) = true.
Proof. unfold kill_recorded. destruct (negb (pid i =? 0)); reflexivity. Qed.

Lemma process_group_rewait_behaves pid_ ws :
  forall i, well_behaved of_process_group [0; EXIT_FAILURE]
              (process_group_rewait pid_ ws i).
Proof.
  induction ws as [| w ws IH]; intros i; simpl; [trivial |].
  destruct (wait_ret w <? 0).
  - destruct (wait_errno w =? EINTR).
    + apply well_behaved_prepend; [reflexivity | apply IH].
    + split.
      * simpl. apply kill_recorded_of_process_group.
      * intros rc H. inversion H. simpl. auto.
  - split.
    + simpl. apply kill_recorded_of_process_group.
    + intros rc H. inversion H. simpl. auto.
Qed.

Lemma process_group_child_behaves c i :
  well_behaved of_process_group [0; EXIT_FAILURE]
    (Some (process_group_child c i)).
Proof.
  unfold process_group_child, process_group_child_a, process_group_child_b.
  destruct (pipe_ret c <? 0).
  { split; [reflexivity |]. intros rc H. inversion H. simpl. auto. }
  destruct (fork2_ret c <? 0).
  { split; [reflexivity |]. intros rc H. inversion H. simpl. auto. }
  destruct (fork2_ret c =? 0).
  - destruct (write_ret c <? 1); [| destruct (stopped_until c)]; simpl;
      (split; [reflexivity |]); intros rc H; discriminate.
  - destruct (sys_read _ _ 0) as [k |]; [destruct (k <? 1) |]; simpl;
      (split; [reflexivity |]); intros rc H; discriminate.
Qed.

Lemma process_group_again_behaves fs t :
  forall i, well_behaved of_process_group [0; EXIT_FAILURE]
              (process_group_again fs t i).
Proof.
  induction fs as [| f fs IH]; intros i; simpl; [trivial |].
  destruct (fork_ret f <? 0).
  - destruct (stress_redo_fork f).
    + apply well_behaved_prepend; [reflexivity | apply IH].
    + destruct (stress_continue f); simpl; (split; [reflexivity |]);
        intros rc H; inversion H; simpl; auto.
  - destruct (fork_ret f =? 0).
    + pose proof (process_group_child_behaves (child t) i) as Hc.
      destruct (process_group_child (child t) i) as [[o i'] evs].
      simpl in Hc |- *. exact Hc.
    + apply well_behaved_prepend; [reflexivity |].
      apply process_group_rewait_behaves.
Qed.

(** A trial of either variant. *)
Lemma trial_behaves t i :
  well_behaved of_trial [0; EXIT_FAILURE; -1]
    (if stress_mwc1 t then stress_sighup_raise_signal t i
     else stress_sighup_process_group t i).
Proof.
  destruct (stress_mwc1 t).
  - apply raise_signal_again_behaves.
  - unfold stress_sighup_process_group.
    pose proof (process_group_again_behaves (forks t) t (set_pid 0 i)) as H.
    apply well_behaved_prepend; [reflexivity |].
    destruct (process_group_again _ _ _) as [[[o i'] evs] |]; [| trivial].
    destruct H as [He Hr]. split; [apply forallb_of_process_group, He |].
    intros rc Hrc. destruct (Hr rc Hrc) as [<- | [<- | []]]; simpl; auto.
Qed.

(** ** Variant B does not look at the flag *)

(** X14: a trial of variant B never reports that the handler was not
    called, and when it returns the status is 0 or EXIT_FAILURE; whether
    SIGHUP reached child B has no part in the verdict. *)
Theorem process_group_ignores_flag (t : trial_os)
    (i i' : stress_sighup_info_t) (o : outcome) (evs : list event) :
  stress_sighup_process_group t i = Some (o, i', evs) ->
  count_if is_not_signalled evs = 0%nat
  /\ forall rc, o = Returns rc -> rc = 0 \/ rc = EXIT_FAILURE.
Proof.
  intros H. unfold stress_sighup_process_group in H.
  apply prepend_some in H. destruct H as [tr [H ->]].
  pose proof (process_group_again_behaves (forks t) t (set_pid 0 i)) as Hb.
  rewrite H in Hb. destruct Hb as [He Hr]. split.
  - rewrite (forallb_count_if of_process_group); [reflexivity | |].
    + simpl. exact He.
    + intros e Hq. unfold of_process_group in Hq.
      apply andb_true_iff in Hq. destruct Hq as [_ Hq].
      apply negb_true_iff in Hq. exact Hq.
  - intros rc Hrc. destruct (Hr rc Hrc) as [<- | [<- | []]]; auto.
Qed.

Lemma process_group_ignores_flag_witness :
  count_if is_not_signalled
    [E_sighandler SIGHUP; E_fork; E_waitpid 77; E_kill_pid_wait 78] = 0%nat
  /\ forall rc, Returns 0 = Returns rc -> rc = 0 \/ rc = EXIT_FAILURE.
Proof.
  exact (process_group_ignores_flag
           (a_trial false [fork_ok]
              [wait_done
                 (fun i => snd (fst (process_group_child (a_child 0) i)))]
              (a_child 0))
           (set_signalled false zero_info)
           {| signalled := false; pid := 78; count := 0%float;
              t_start := 2%float; latency := 0%float |}
           (Returns 0)
           [E_sighandler SIGHUP; E_fork; E_waitpid 77; E_kill_pid_wait 78]
           eq_refl).
Defined.

(** ** A child that comes back *)

(** X15: the child forked by variant B returns from the trial, instead of
    exiting, exactly when its [pipe()] or its own [fork()] fails; it then
    goes on in the worker's loop: the trial counts as passed, an operation
    is counted, and the child runs the remaining trials or, at the stop,
    reports the metric and unmaps the block. *)
Theorem child_without_pipe_goes_on_as_worker (t : trial_os)
    (ts : list trial_os) (f : fork_try) (fs : list fork_try)
    (i : stress_sighup_info_t) :
  stress_mwc1 t = false ->
  forks t = f :: fs ->
  fork_ret f = 0 ->
  let start := set_pid 0 (set_signalled false i) in
  let i1 := snd (fst (process_group_child (child t) start)) in
  let evs := [E_sighandler SIGHUP; E_fork]
             ++ snd (process_group_child (child t) start) in
  (fst (fst (process_group_child (child t) start)) = Returns 0
   <-> pipe_ret (child t) < 0 \/ fork2_ret (child t) < 0)
  /\ (pipe_ret (child t) < 0 \/ fork2_ret (child t) < 0 ->
      (continue_after t = true ->
       trials (t :: ts) i = prepend (evs ++ [Bogo_inc]) (trials ts i1))
      /\ (continue_after t = false ->
          exists v,
            trials (t :: ts) i =
              Some (Returns EXIT_SUCCESS, i1,
                    evs ++ [Bogo_inc; E_metrics_set v; E_munmap]))).
Proof.
  intros Hv Hfs Hf start i1 evs.
  assert (Hiff : fst (fst (process_group_child (child t) start)) = Returns 0
                 <-> pipe_ret (child t) < 0 \/ fork2_ret (child t) < 0).
  { unfold process_group_child, process_group_child_a,
      process_group_child_b.
    destruct (Z.ltb_spec (pipe_ret (child t)) 0); [simpl; tauto |].
    destruct (Z.ltb_spec (fork2_ret (child t)) 0); [simpl; tauto |].
    destruct (fork2_ret (child t) =? 0).
    - destruct (write_ret (child t) <? 1);
        [| destruct (stopped_until (child t))]; simpl;
        (split; [discriminate | lia]).
    - destruct (sys_read _ _ 0) as [k |]; [destruct (k <? 1) |]; simpl;
        (split; [discriminate | lia]). }
  split; [exact Hiff |]. intros Hfail. apply Hiff in Hfail.
  assert (Htrial : stress_sighup_process_group t (set_signalled false i) =
                   Some (Returns 0, i1, evs)).
  { unfold stress_sighup_process_group. rewrite Hfs.
    simpl process_group_again. rewrite Hf. simpl. fold start.
    unfold i1, evs. revert Hfail.
    destruct (process_group_child (child t) start) as [[o i'] tr]. simpl.
    intros ->. reflexivity. }
  simpl trials. rewrite Hv, Htrial. simpl.
  split; intros Hc; rewrite Hc; [reflexivity |].
  eexists. reflexivity.
Qed.

Lemma child_without_pipe_goes_on_as_worker_witness :
  exists v,
    trials (a_trial false [{| fork_ret := 0; fork_errno := 0;
                              stress_redo_fork := false;
                              stress_continue := true |}] []
              (b_child (-1) 0) :: []) zero_info =
      Some (Returns EXIT_SUCCESS, zero_info,
            ([E_sighandler SIGHUP; E_fork] ++ [E_pipe])
            ++ [Bogo_inc; E_metrics_set v; E_munmap]).
Proof.
  refine (proj2 (proj2
    (child_without_pipe_goes_on_as_worker
       (a_trial false [{| fork_ret := 0; fork_errno := 0;
                          stress_redo_fork := false;
                          stress_continue := true |}] []
          (b_child (-1) 0)) []
       {| fork_ret := 0; fork_errno := 0;
          stress_redo_fork := false; stress_continue := true |} []
       zero_info eq_refl eq_refl eq_refl) _) eq_refl).
  left. simpl. lia.
Defined.

(** ** The end of the run *)

Lemma trials_end ts :
  forall i o i' evs,
    trials ts i = Some (o, i', evs) ->
    match o with
    | Returns rc =>
        In rc [0; EXIT_FAILURE; -1]
        /\ exists evs0 v,
             evs = evs0 ++ [E_metrics_set v; E_munmap]
             /\ count_if is_unmap evs0 = 0%nat
    | _ => count_if is_unmap evs = 0%nat
    end.
Proof.
  assert (Hq : forall e, of_trial e = true -> is_unmap e = false)
    by (intros []; simpl; congruence).
  assert (Happ : forall a b, count_if is_unmap a = 0%nat ->
                             count_if is_unmap b = 0%nat ->
                             count_if is_unmap (a ++ b) = 0%nat).
  { intros a b Ha Hb. unfold count_if in *.
    rewrite filter_app, length_app, Ha, Hb. reflexivity. }
  induction ts as [| t ts IH]; intros i o i' evs H; [discriminate |].
  simpl in H.
  pose proof (trial_behaves t (set_signalled false i)) as Hb.
  destruct (if stress_mwc1 t then _ else _) as [[[o1 i1] evs1] |];
    [| discriminate].
  destruct Hb as [He Hr].
  pose proof (forallb_count_if of_trial is_unmap evs1 He Hq) as H1.
  destruct o1 as [rc | s | s |].
  - specialize (Hr rc eq_refl).
    destruct (rc =? EXIT_SUCCESS).
    + destruct (continue_after t).
      * apply prepend_some in H. destruct H as [tr [H ->]].
        specialize (IH _ _ _ _ H). destruct o as [rc' | s | s |].
        -- destruct IH as [Hrc [evs0 [v [-> Hc]]]]. split; [exact Hrc |].
           exists ((evs1 ++ [Bogo_inc]) ++ evs0), v.
           split; [rewrite app_assoc; reflexivity |].
           apply Happ; [apply Happ; [exact H1 | reflexivity] | exact Hc].
        -- apply Happ; [apply Happ; [exact H1 | reflexivity] | exact IH].
        -- apply Happ; [apply Happ; [exact H1 | reflexivity] | exact IH].
        -- apply Happ; [apply Happ; [exact H1 | reflexivity] | exact IH].
      * inversion H; subst. split; [exact Hr |].
        eexists (evs1 ++ [Bogo_inc]), _.
        split; [rewrite <- app_assoc; reflexivity |].
        apply Happ; [exact H1 | reflexivity].
    + inversion H; subst. split; [exact Hr |].
      eexists evs1, _. split; [reflexivity | exact H1].
  - inversion H; subst. exact H1.
  - inversion H; subst. exact H1.
  - inversion H; subst. exact H1.
Qed.

(** X16: once the block is mapped, every return of [stress_sighup] ends
    with the metric being set and the block being unmapped, and unmaps it
    that one time only; a forked child that leaves by exiting or by a
    signal never unmaps it. *)
Theorem block_unmapped_once_at_return (sighandler_ret : Z)
    (ts : list trial_os) (o : outcome) (i : stress_sighup_info_t)
    (evs : list event) :
  0 <= sighandler_ret ->
  stress_sighup sighandler_ret true ts = Some (o, i, evs) ->
  match o with
  | Returns rc =>
      exists evs0 v,
        evs = evs0 ++ [E_metrics_set v; E_munmap]
        /\ count_if is_unmap evs0 = 0%nat
  | _ => count_if is_unmap evs = 0%nat
  end.
Proof.
  intros Hr H. unfold stress_sighup in H.
  destruct (Z.ltb_spec sighandler_ret 0); [lia |]. simpl in H.
  apply prepend_some in H. destruct H as [tr [H ->]].
  apply trials_end in H. destruct o as [rc | s | s |].
  - destruct H as [_ [evs0 [v [-> Hc]]]].
    exists ([E_sighandler SIGHUP; E_mmap] ++ evs0), v.
    split; [rewrite app_assoc; reflexivity | exact Hc].
  - exact H.
  - exact H.
  - exact H.
Qed.

Lemma block_unmapped_once_at_return_witness :
  exists evs0 v,
    [E_sighandler SIGHUP; E_mmap; E_sighandler SIGHUP; E_fork;
     E_waitpid 77; Bogo_inc; E_metrics_set 0%float; E_munmap]
    = evs0 ++ [E_metrics_set v; E_munmap]
    /\ count_if is_unmap evs0 = 0%nat.
Proof.
  exact (block_unmapped_once_at_return 0
           [a_trial false [fork_ok] [wait_done (fun i => i)] (a_child 0)]
           (Returns 0) zero_info
           [E_sighandler SIGHUP; E_mmap; E_sighandler SIGHUP; E_fork;
            E_waitpid 77; Bogo_inc; E_metrics_set 0%float; E_munmap]
           ltac:(lia) eq_refl).
Defined.

(** X17: [stress_sighup] returns EXIT_NO_RESOURCE exactly when the handler
    could not be installed or the block could not be mapped; otherwise it
    returns the status of its last trial, which is EXIT_SUCCESS,
    EXIT_FAILURE or the -1 of a failed fork in variant A. *)
Theorem stress_sighup_statuses (sighandler_ret : Z) (mmap_ok : bool)
    (ts : list trial_os) (rc : Z) (i : stress_sighup_info_t)
    (evs : list event) :
  stress_sighup sighandler_ret mmap_ok ts = Some (Returns rc, i, evs) ->
  (rc = EXIT_NO_RESOURCE /\ (sighandler_ret < 0 \/ mmap_ok = false))
  \/ ((0 <= sighandler_ret /\ mmap_ok = true)
      /\ (rc = EXIT_SUCCESS \/ rc = EXIT_FAILURE \/ rc = -1)).
Proof.
  unfold stress_sighup. intros H.
  destruct (Z.ltb_spec sighandler_ret 0).
  { inversion H. left. split; [reflexivity | left; assumption]. }
  destruct mmap_ok; simpl in H.
  - apply prepend_some in H. destruct H as [tr [H _]].
    apply trials_end in H. destruct H as [[<- | [<- | [<- | []]]] _];
      right; (split; [split; [assumption | reflexivity] |]); auto.
  - inversion H. left. split; [reflexivity | right; reflexivity].
Qed.

Lemma stress_sighup_statuses_witness :
  (-1 = EXIT_NO_RESOURCE /\ (0 < 0 \/ true = false))
  \/ ((0 <= 0 /\ true = true)
      /\ (-1 = EXIT_SUCCESS \/ -1 = EXIT_FAILURE \/ -1 = -1)).
Proof.
  exact (stress_sighup_statuses 0 true
           [a_trial true [fork_enomem false true] [] (a_child 0)]
           (-1) zero_info
           [E_sighandler SIGHUP; E_mmap; E_fork; Pr_fail (Fail_fork 12);
            E_metrics_set 0%float; E_munmap]
           eq_refl).
Defined.

End SigHupMore.
